(** * Quantum Randomness Generator: the bit engine of [app.py]

    A shallow embedding of the three pieces of [app.py] that carry logic:
    [generate_random_bits], [bit_stats] and the length handling at the top
    of [api_generate].  Python [int] is [Z], [str] is [string] (code
    points below 256), [bytes] is [list byte], [float] is binary64, written
    [float] below.  Exceptions are values of [exn]; a computation that may
    raise returns a [result]. *)

From Stdlib Require Import ZArith NArith List String Ascii Bool Lia.
From Stdlib Require Import Strings.Byte.
From Stdlib Require Import Floats.SpecFloat.
Import ListNotations.

Local Open Scope string_scope.
Local Open Scope Z_scope.

(** ** Exceptions and results

    The exception classes that the code can meet: those of the Python run
    time and of the web framework.  The last one, [EntropySourceUnavailable],
    is the typed error named by the specification; [app.py] neither defines
    nor raises it, and it is listed only so that the outcome of the code can
    be compared with it. *)

Inductive exn : Type :=
| ValueError
| TypeError
| OverflowError
| ZeroDivisionError
| AttributeError
| BadRequest
| OSError
| NotImplementedError
| EntropySourceUnavailable.

Inductive result (A : Type) : Type :=
| Ok (a : A)
| Raise (e : exn).

Arguments Ok {A} a.
Arguments Raise {A} e.

Definition rbind {A B : Type} (r : result A) (k : A -> result B) : result B :=
  match r with
  | Ok a => k a
  | Raise e => Raise e
  end.

(** ** The operating system's randomness source

    [secrets.token_bytes k] is one call into the OS generator.  The world
    seen by the program is the list of the sizes it has requested so far,
    oldest first; the answer of the source to a request is given by an
    oracle that may depend on that history. *)

Definition world : Type := list Z.

Definition oracle : Type := world -> Z -> result (list byte).

(** State and exception monad over [world]. *)
Definition M (A : Type) : Type := world -> result A * world.

Definition ret {A : Type} (a : A) : M A := fun w => (Ok a, w).

Definition raise {A : Type} (e : exn) : M A := fun w => (Raise e, w).

Definition bind {A B : Type} (m : M A) (k : A -> M B) : M B :=
  fun w =>
    match m w with
    | (Ok a, w') => k a w'
    | (Raise e, w') => (Raise e, w')
    end.

Notation "x <- m ;; k" := (bind m (fun x => k))
  (at level 61, m at next level, right associativity).

Definition token_bytes (urandom : oracle) (n_bytes : Z) : M (list byte) :=
  fun w => (urandom w n_bytes, (w ++ [n_bytes])%list).

(** ** Strings *)

Fixpoint repeat_char (c : ascii) (k : nat) : string :=
  match k with
  | O => ""
  | S k' => String c (repeat_char c k')
  end.

(** [s[:k]] for [k >= 0]. *)
Fixpoint take (k : nat) (s : string) : string :=
  match k, s with
  | O, _ => ""
  | S _, EmptyString => ""
  | S k', String c s' => String c (take k' s')
  end.

Definition len (s : string) : Z := Z.of_nat (String.length s).

(** Python's [s[:n]]: the first [n] characters when [n >= 0], all but the
    last [-n] when [n < 0]. *)
Definition slice_to (n : Z) (s : string) : string :=
  if 0 <=? n then take (Z.to_nat n) s
  else take (Z.to_nat (len s + n)) s.

(** [sep.join(parts)] with the empty separator. *)
Fixpoint join (parts : list string) : string :=
  match parts with
  | [] => ""
  | p :: ps => p ++ join ps
  end.

(** ** [f"{b:08b}"] *)

(** Binary digits of a positive number, most significant first, in front
    of [acc]. *)
Fixpoint pos_bin (p : positive) (acc : string) : string :=
  match p with
  | xH => String "1" acc
  | xO q => pos_bin q (String "0" acc)
  | xI q => pos_bin q (String "1" acc)
  end.

Definition bin (v : N) : string :=
  match v with
  | N0 => "0"
  | Npos p => pos_bin p ""
  end.

(** Zero padding on the left up to [width]; longer strings are kept. *)
Definition zfill (width : nat) (s : string) : string :=
  repeat_char "0" (width - String.length s)%nat ++ s.

Definition format_08b (b : byte) : string := zfill 8 (bin (Byte.to_N b)).

(** ** [generate_random_bits] *)

Section Generator.

Variable urandom : oracle.

Definition generate_random_bits (n_bits : Z) : M string :=
  if n_bits <=? 0 then ret ""
  else
    let n_bytes := (n_bits + 7) / 8 in
    random_bytes <- token_bytes urandom n_bytes ;;
    let bits_list := map format_08b random_bytes in
    let bitstring := join bits_list in
    ret (slice_to n_bits bitstring).

End Generator.

(** ** binary64 arithmetic

    Python's [float] is IEEE-754 binary64.  The operations are those of
    [SpecFloat] at precision 53 and maximal exponent 1024. *)

Definition float : Type := spec_float.

Definition prec : Z := 53.
Definition emax : Z := 1024.

Definition fzero : float := S754_zero false.
Definition fone : float := S754_finite false 4503599627370496 (-52).
Definition fhalf : float := S754_finite false 4503599627370496 (-53).

Definition fadd : float -> float -> float := SFadd prec emax.
Definition fmul : float -> float -> float := SFmul prec emax.
Definition fneg : float -> float := SFopp.
Definition flt : float -> float -> bool := SFltb.

Definition float_of_int_exact (z : Z) : float :=
  match z with
  | Z0 => S754_zero false
  | Zpos p => S754_finite false p 0
  | Zneg p => S754_finite true p 0
  end.

(** [a / b] on two [int]s: the quotient rounded once to binary64. *)
Definition true_divide (a b : Z) : result float :=
  if b =? 0 then Raise ZeroDivisionError
  else
    match SFdiv prec emax (float_of_int_exact a) (float_of_int_exact b) with
    | S754_infinity _ => Raise OverflowError
    | q => Ok q
    end.

(** [math.log2] on a float: a domain error outside the positive numbers,
    NaN and positive infinity are passed through, and the value itself comes
    from the C library's [log2]. *)
Definition math_log2 (libm_log2 : float -> float) (x : float) : result float :=
  match x with
  | S754_nan => Ok x
  | S754_infinity false => Ok x
  | S754_infinity true => Raise ValueError
  | S754_zero _ => Raise ValueError
  | S754_finite true _ _ => Raise ValueError
  | S754_finite false _ _ => Ok (libm_log2 x)
  end.

(** ** [bit_stats] *)

Module Stats.
Record t : Type := mk {
  length : Z;
  zeros : Z;
  ones : Z;
  entropy : float
}.
End Stats.

(** [s.count(c)] for a one-character pattern. *)
Fixpoint count (c : ascii) (s : string) : Z :=
  match s with
  | EmptyString => 0
  | String a s' => (if Ascii.eqb a c then 1 else 0) + count c s'
  end.

(** Truth value of an [int]. *)
Definition int_truthy (n : Z) : bool := negb (n =? 0).

Section Statistics.

Variable libm_log2 : float -> float.

Definition _h (p : float) : result float :=
  if flt fzero p
  then rbind (math_log2 libm_log2 p) (fun l => Ok (fneg (fmul p l)))
  else Ok fzero.

Definition bit_stats (bits : string) : result Stats.t :=
  let n := len bits in
  let zeros := count "0" bits in
  let ones := n - zeros in
  rbind (if int_truthy n then true_divide zeros n else Ok fzero) (fun p0 =>
  rbind (if int_truthy n then true_divide ones n else Ok fzero) (fun p1 =>
  rbind (_h p0) (fun h0 =>
  rbind (_h p1) (fun h1 =>
  let entropy := fadd h0 h1 in
  Ok (Stats.mk n zeros ones entropy))))).

End Statistics.

(** ** Python values reaching [int(...)]

    The value bound to [length] in [api_generate] is a query-string value
    (a [str]), [False], or whatever the JSON body holds under the key. *)

#[warnings="-register-all"] Inductive pyval : Type :=
| PyNone
| PyBool (b : bool)
| PyInt (z : Z)
| PyFloat (f : float)
| PyStr (s : string)
| PyList (l : list pyval)
| PyDict (d : list (string * pyval)).

(** *** [int(s)] on a string, base 10 *)

(** The characters that [int] skips around a literal, among the code
    points below 256: the ASCII whitespace (tab to carriage return, and the
    space) and, outside ASCII, U+0085 and U+00A0.  The separators U+001C to
    U+001F are not among them. *)
Definition is_space (c : ascii) : bool :=
  let k := Z.of_nat (nat_of_ascii c) in
  ((9 <=? k) && (k <=? 13)) || (k =? 32) || (k =? 133) || (k =? 160).

Definition digit_value (c : ascii) : option Z :=
  let k := Z.of_nat (nat_of_ascii c) in
  if (48 <=? k) && (k <=? 57) then Some (k - 48) else None.

Fixpoint lstrip (s : string) : string :=
  match s with
  | EmptyString => EmptyString
  | String c s' => if is_space c then lstrip s' else s
  end.

Fixpoint all_space (s : string) : bool :=
  match s with
  | EmptyString => true
  | String c s' => is_space c && all_space s'
  end.

(** Digits, with single underscores allowed between two digits, followed
    by whitespace only.  [acc] is the value read so far, [digits] the number
    of digits read, [prev_digit] whether the previous character was one. *)
Fixpoint scan_digits (s : string) (acc : Z) (digits : nat) (prev_digit : bool)
  : option (Z * nat) :=
  match s with
  | EmptyString => if prev_digit then Some (acc, digits) else None
  | String c s' =>
      match digit_value c with
      | Some d => scan_digits s' (10 * acc + d) (S digits) true
      | None =>
          if Ascii.eqb c "_"
          then (if prev_digit then scan_digits s' acc digits false else None)
          else if prev_digit && all_space s then Some (acc, digits) else None
      end
  end.

(** The interpreter's default limit on the digits of a decimal literal
    given to [int]. *)
Definition int_max_str_digits : nat := 4300.

Definition int_of_str (s : string) : result Z :=
  let body := lstrip s in
  let '(negative, rest) :=
    match body with
    | String "-" r => (true, r)
    | String "+" r => (false, r)
    | _ => (false, body)
    end in
  match scan_digits rest 0 O false with
  | Some (v, digits) =>
      if (int_max_str_digits <? digits)%nat then Raise ValueError
      else Ok (if negative then - v else v)
  | None => Raise ValueError
  end.

(** [int(f)] on a float: truncation toward zero. *)
Definition int_of_float (f : float) : result Z :=
  match f with
  | S754_zero _ => Ok 0
  | S754_infinity _ => Raise OverflowError
  | S754_nan => Raise ValueError
  | S754_finite s m e =>
      let a := if 0 <=? e then Z.pos m * 2 ^ e else Z.pos m / 2 ^ (- e) in
      Ok (if s then - a else a)
  end.

Definition py_int (v : pyval) : result Z :=
  match v with
  | PyNone => Raise TypeError
  | PyBool b => Ok (if b then 1 else 0)
  | PyInt z => Ok z
  | PyFloat f => int_of_float f
  | PyStr s => int_of_str s
  | PyList _ => Raise TypeError
  | PyDict _ => Raise TypeError
  end.

(** ** The request seen by [api_generate] *)

Record request : Type := mk_request {
  (** [request.args.get("length")] *)
  args_length : option string;
  (** [request.is_json] *)
  is_json : bool;
  (** [request.json]: the decoded body, [None] when it does not decode *)
  json : option pyval
}.

Definition str_truthy (s : string) : bool :=
  match s with
  | EmptyString => false
  | String _ _ => true
  end.

Fixpoint dict_get (d : list (string * pyval)) (key : string) : pyval :=
  match d with
  | [] => PyNone
  | (k, v) :: d' => if String.eqb k key then v else dict_get d' key
  end.

(** [request.json.get("length")] *)
Definition json_get_length (req : request) : result pyval :=
  match json req with
  | None => Raise BadRequest
  | Some (PyDict d) => Ok (dict_get d "length")
  | Some _ => Raise AttributeError
  end.

Definition MAX_BITS : Z := 262144.
Definition DEFAULT_BITS : Z := 256.

(** Lines 101-103: the value bound to [length]. *)
Definition api_generate_length (req : request) : result pyval :=
  let from_json :=
    if is_json req then json_get_length req else Ok (PyBool false) in
  match args_length req with
  | Some s => if str_truthy s then Ok (PyStr s) else from_json
  | None => from_json
  end.

(** Lines 104-107: [int(length)], with the default for [None] and for any
    exception. *)
Definition parse_n_bits (length : pyval) : Z :=
  match length with
  | PyNone => DEFAULT_BITS
  | _ =>
      match py_int length with
      | Ok z => z
      | Raise _ => DEFAULT_BITS
      end
  end.

(** Line 109. *)
Definition clamp_n_bits (n_bits : Z) : Z := Z.max 1 (Z.min n_bits MAX_BITS).

(** Lines 97-109: the [n_bits] handed to [generate_random_bits]. *)
Definition api_generate_n_bits (req : request) : result Z :=
  rbind (api_generate_length req) (fun length =>
  Ok (clamp_n_bits (parse_n_bits length))).

(** The body of the response, without the clock fields [duration_ms] and
    [ts]. *)
Record response : Type := mk_response {
  bits : string;
  stats : Stats.t;
  source : string
}.

Definition lift {A : Type} (r : result A) : M A := fun w => (r, w).

Section Handler.

Variable urandom : oracle.
Variable libm_log2 : float -> float.

Definition api_generate (req : request) : M response :=
  n_bits <- lift (api_generate_n_bits req) ;;
  bits <- generate_random_bits urandom n_bits ;;
  stats <- lift (bit_stats libm_log2 bits) ;;
  ret (mk_response bits stats "secrets").

End Handler.

(** ** Vocabulary of the statements *)

Definition is_bit (c : ascii) : bool := Ascii.eqb c "0" || Ascii.eqb c "1".

Fixpoint is_bitstring (s : string) : bool :=
  match s with
  | EmptyString => true
  | String c s' => is_bit c && is_bitstring s'
  end.

(** Number of characters of [s] that satisfy [f]. *)
Fixpoint count_if (f : ascii -> bool) (s : string) : Z :=
  match s with
  | EmptyString => 0
  | String a s' => (if f a then 1 else 0) + count_if f s'
  end.

(** The symbol written for one bit. *)
Definition bit_char (b : bool) : ascii := if b then "1"%char else "0"%char.

(** The source answers the request of [k] bytes made in world [w], with
    exactly [k] bytes. *)
Definition delivers (urandom : oracle) (w : world) (k : Z) : Prop :=
  exists bs, urandom w k = Ok bs /\ Z.of_nat (List.length bs) = k.

(** A source for tests: every byte is [0xa5]. *)
Definition fake_urandom : oracle :=
  fun _ k => Ok (List.repeat xa5 (Z.to_nat k)).

(** A source that is not available. *)
Definition broken_urandom : oracle := fun _ _ => Raise OSError.

(** [s[k:]] for [k >= 0]. *)
Fixpoint drop (k : nat) (s : string) : string :=
  match k, s with
  | O, _ => s
  | S _, EmptyString => ""
  | S k', String _ s' => drop k' s'
  end.

(** Reading the symbols back: the byte written by a block of eight symbols,
    most significant bit first (missing symbols read as ['0']), and the
    bytes written by [k] consecutive blocks. *)
Definition char_bit (c : ascii) : bool := Ascii.eqb c "1".

Definition byte_of_block (s : string) : byte :=
  let b i := match String.get i s with
             | Some c => char_bit c
             | None => false
             end in
  Byte.of_bits (b 7%nat, (b 6%nat, (b 5%nat, (b 4%nat,
               (b 3%nat, (b 2%nat, (b 1%nat, b 0%nat))))))).

Fixpoint pack (k : nat) (s : string) : list byte :=
  match k with
  | O => []
  | S k' => byte_of_block (take 8 s) :: pack k' (drop 8 s)
  end.

(** A source that answers every request with the bytes [bs]. *)
Definition constant_urandom (bs : list byte) : oracle := fun _ _ => Ok bs.

(** The string with every ['0'] and ['1'] exchanged. *)
Definition flip_bit (c : ascii) : ascii :=
  if Ascii.eqb c "0" then "1"%char
  else if Ascii.eqb c "1" then "0"%char else c.

Fixpoint complement (s : string) : string :=
  match s with
  | EmptyString => EmptyString
  | String c s' => String (flip_bit c) (complement s')
  end.

(** A C library whose [log2] is exact at the powers of two between [1/4]
    and [4] and returns [0.0] elsewhere; used to instantiate statements that
    assume exactness at [1.0] or [0.5]. *)
Definition exact_log2 (x : float) : float :=
  match x with
  | S754_finite false 4503599627370496 (-54) =>
      S754_finite true 4503599627370496 (-51)
  | S754_finite false 4503599627370496 (-53) =>
      S754_finite true 4503599627370496 (-52)
  | S754_finite false 4503599627370496 (-52) => S754_zero false
  | S754_finite false 4503599627370496 (-51) =>
      S754_finite false 4503599627370496 (-52)
  | S754_finite false 4503599627370496 (-50) =>
      S754_finite false 4503599627370496 (-51)
  | _ => S754_zero false
  end.

(** The decimal writing of a natural number, as a client puts it in the
    query string: digits from the least significant one, in front of
    [acc]. *)
Definition digit_char (d : Z) : ascii := ascii_of_nat (48 + Z.to_nat d).

Fixpoint decimal_acc (fuel : nat) (n : Z) (acc : string) : string :=
  match fuel with
  | O => acc
  | S fuel' =>
      let acc' := String (digit_char (n mod 10)) acc in
      if n / 10 =? 0 then acc' else decimal_acc fuel' (n / 10) acc'
  end.

Definition decimal (n : Z) : string :=
  decimal_acc (S (Z.to_nat (Z.log2 n))) n "".

Fixpoint all_digits (s : string) : bool :=
  match s with
  | EmptyString => true
  | String c s' =>
      match digit_value c with
      | Some _ => all_digits s'
      | None => false
      end
  end.

(** * Properties *)

(** ** Sanity checks of the embedding *)

Example format_08b_5 : format_08b x05 = "00000101".
Proof. reflexivity. Qed.

Example format_08b_ff : format_08b xff = "11111111".
Proof. reflexivity. Qed.

Example int_of_str_examples :
  int_of_str " 12_3 " = Ok 123 /\ int_of_str "-7" = Ok (-7)
  /\ int_of_str "1__2" = Raise ValueError /\ int_of_str "" = Raise ValueError
  /\ int_of_str "+ 1" = Raise ValueError /\ int_of_str "12a" = Raise ValueError
  /\ int_of_str "_1" = Raise ValueError /\ int_of_str "1_" = Raise ValueError
  /\ int_of_str "007" = Ok 7 /\ int_of_str "3.5" = Raise ValueError.
Proof. repeat split; reflexivity. Qed.

Example int_of_str_separators :
  int_of_str (String "031" "12") = Raise ValueError
  /\ int_of_str ("12" ++ String "028" "") = Raise ValueError
  /\ int_of_str (String "009" "12") = Ok 12
  /\ int_of_str (String "160" "12") = Ok 12
  /\ int_of_str (String "133" "12") = Ok 12.
Proof. repeat split; reflexivity. Qed.

Example int_of_float_examples :
  int_of_float (S754_finite false 7 (-1)) = Ok 3
  /\ int_of_float (S754_finite true 7 (-1)) = Ok (-3)
  /\ int_of_float fone = Ok 1 /\ int_of_float fhalf = Ok 0.
Proof. repeat split; reflexivity. Qed.

(** ** Strings: length, indexing, prefixes *)

Lemma length_app (a b : string) :
  String.length (a ++ b) = (String.length a + String.length b)%nat.
Proof. induction a as [|c a IH]; simpl; [reflexivity | now rewrite IH]. Qed.

Lemma length_take (k : nat) (s : string) :
  String.length (take k s) = Nat.min k (String.length s).
Proof.
  revert s; induction k as [|k IH]; intros [|c s]; simpl; try reflexivity.
  now rewrite IH.
Qed.

Lemma get_take (k i : nat) (s : string) :
  (i < k)%nat -> String.get i (take k s) = String.get i s.
Proof.
  revert i s; induction k as [|k IH]; intros i s Hi; [lia|].
  destruct s as [|c s]; simpl; [reflexivity|].
  destruct i as [|i]; [reflexivity|]. apply IH; lia.
Qed.

Lemma is_bitstring_app (a b : string) :
  is_bitstring (a ++ b) = is_bitstring a && is_bitstring b.
Proof.
  induction a as [|c a IH]; simpl; [reflexivity|].
  now rewrite IH, andb_assoc.
Qed.

Lemma is_bitstring_take (k : nat) (s : string) :
  is_bitstring s = true -> is_bitstring (take k s) = true.
Proof.
  revert s; induction k as [|k IH]; intros [|c s]; simpl; auto.
  intros H; apply andb_true_iff in H as [Hc Hs].
  now rewrite Hc, (IH _ Hs).
Qed.

(** ** One byte *)

Lemma format_08b_length (b : byte) : String.length (format_08b b) = 8%nat.
Proof. destruct b; reflexivity. Qed.

Lemma format_08b_bits (b : byte) : is_bitstring (format_08b b) = true.
Proof. destruct b; reflexivity. Qed.

Lemma format_08b_get (b : byte) (j : nat) :
  (j < 8)%nat ->
  String.get j (format_08b b)
  = Some (bit_char (N.testbit (Byte.to_N b) (N.of_nat (7 - j)))).
Proof.
  intros Hj.
  do 8 (destruct j as [|j]; [destruct b; reflexivity|]).
  lia.
Qed.

(** ** The expansion of a byte string *)

Lemma join_length (bs : list byte) :
  String.length (join (map format_08b bs)) = (8 * List.length bs)%nat.
Proof.
  induction bs as [|b bs IH]; simpl; [reflexivity|].
  rewrite length_app, format_08b_length, IH. lia.
Qed.

Lemma join_bits (bs : list byte) :
  is_bitstring (join (map format_08b bs)) = true.
Proof.
  induction bs as [|b bs IH]; simpl; [reflexivity|].
  now rewrite is_bitstring_app, format_08b_bits, IH.
Qed.

Lemma join_get (bs : list byte) (q r : nat) :
  (r < 8)%nat -> (q < List.length bs)%nat ->
  String.get (8 * q + r) (join (map format_08b bs))
  = String.get r (format_08b (nth q bs x00)).
Proof.
  revert q; induction bs as [|b bs IH]; intros q Hr Hq; simpl in Hq; [lia|].
  destruct q as [|q].
  - cbn [map join nth]. replace (8 * 0 + r)%nat with r by lia.
    symmetry. apply append_correct1. rewrite format_08b_length. exact Hr.
  - cbn [map join nth].
    replace (8 * S q + r)%nat
      with ((8 * q + r) + String.length (format_08b b))%nat
      by (rewrite format_08b_length; lia).
    rewrite <- append_correct2. apply IH; lia.
Qed.

(** ** [generate_random_bits] *)

Lemma n_bytes_ceil (n : Z) :
  0 < n -> n <= 8 * ((n + 7) / 8) < n + 8.
Proof.
  intros Hn. pose proof (Z.div_mod (n + 7) 8 ltac:(lia)) as E.
  pose proof (Z.mod_pos_bound (n + 7) 8 ltac:(lia)). lia.
Qed.

(** The run of [generate_random_bits] for a positive request, whatever the
    source answers. *)
Lemma generate_random_bits_pos (urandom : oracle) (n : Z) (w : world) :
  0 < n ->
  generate_random_bits urandom n w
  = (match urandom w ((n + 7) / 8) with
     | Ok bs => Ok (take (Z.to_nat n) (join (map format_08b bs)))
     | Raise e => Raise e
     end, (w ++ [(n + 7) / 8])%list).
Proof.
  intros Hn. unfold generate_random_bits, bind, token_bytes, ret, slice_to.
  destruct (Z.leb_spec n 0) as [H|_]; [lia|].
  destruct (urandom w ((n + 7) / 8)) as [bs|e]; [|reflexivity].
  destruct (Z.leb_spec 0 n) as [_|H]; [reflexivity | lia].
Qed.

Lemma expansion_prefix_length (n : Z) (bs : list byte) :
  0 <= n -> n <= 8 * Z.of_nat (List.length bs) ->
  len (take (Z.to_nat n) (join (map format_08b bs))) = n.
Proof.
  intros H0 H8. unfold len. rewrite length_take, join_length. lia.
Qed.

Lemma expansion_prefix_get (n : Z) (bs : list byte) (i : nat) :
  Z.of_nat i < n -> n <= 8 * Z.of_nat (List.length bs) ->
  String.get i (take (Z.to_nat n) (join (map format_08b bs)))
  = Some (bit_char (N.testbit (Byte.to_N (nth (i / 8) bs x00))
                              (N.of_nat (7 - i mod 8)))).
Proof.
  intros Hi H8. rewrite get_take by lia.
  pose proof (Nat.div_mod_eq i 8) as E.
  pose proof (Nat.mod_upper_bound i 8 ltac:(lia)) as Hr.
  rewrite E at 1. rewrite join_get by lia.
  apply format_08b_get. exact Hr.
Qed.

(** C2: for every [n] in [[0, MAX_BITS]], [generate_random_bits n] returns
    a string of exactly [n] characters, each of them ['0'] or ['1'] (when
    [n > 0], given that the source answers the request for the bytes). *)
Theorem generate_random_bits_length_alphabet
    (urandom : oracle) (n : Z) (w : world) :
  0 <= n <= MAX_BITS ->
  (0 < n -> delivers urandom w ((n + 7) / 8)) ->
  exists s w',
    generate_random_bits urandom n w = (Ok s, w')
    /\ len s = n /\ is_bitstring s = true.
Proof.
  intros [H0 _] Hsrc.
  destruct (Z.eq_dec n 0) as [->|Hne].
  - exists "", w. repeat split.
  - assert (Hn : 0 < n) by lia.
    destruct (Hsrc Hn) as (bs & Hbs & Hlen).
    pose proof (n_bytes_ceil n Hn) as Hc.
    rewrite (generate_random_bits_pos urandom n w Hn), Hbs.
    eexists _, _. split; [reflexivity|]. split.
    + apply expansion_prefix_length; lia.
    + apply is_bitstring_take, join_bits.
Qed.

Lemma generate_random_bits_length_alphabet_witness :
  exists s w',
    generate_random_bits fake_urandom 13 [] = (Ok s, w')
    /\ len s = 13 /\ is_bitstring s = true.
Proof.
  apply (generate_random_bits_length_alphabet fake_urandom 13 []).
  - unfold MAX_BITS; lia.
  - intros _. exists (List.repeat xa5 2). split; reflexivity.
Defined.

(** C3: for every [n > 0], [generate_random_bits n] asks the source once,
    for [ceil(n / 8)] bytes; when the source answers with that many bytes,
    the result is the first [n] symbols of the bytes written in binary, eight
    digits each, most significant bit first, in byte order: symbol [i] is
    bit [7 - i mod 8] of byte [i / 8]. *)
Theorem generate_random_bits_algorithm
    (urandom : oracle) (n : Z) (w : world) :
  0 < n ->
  let k := (n + 7) / 8 in
  (8 * (k - 1) < n <= 8 * k)
  /\ snd (generate_random_bits urandom n w) = (w ++ [k])%list
  /\ forall bs,
       urandom w k = Ok bs -> Z.of_nat (List.length bs) = k ->
       exists s,
         fst (generate_random_bits urandom n w) = Ok s
         /\ s = take (Z.to_nat n) (join (map format_08b bs))
         /\ len s = n
         /\ forall i : nat,
              Z.of_nat i < n ->
              String.get i s
              = Some (bit_char (N.testbit (Byte.to_N (nth (i / 8) bs x00))
                                          (N.of_nat (7 - i mod 8)))).
Proof.
  intros Hn k. pose proof (n_bytes_ceil n Hn) as Hc. fold k in Hc.
  rewrite (generate_random_bits_pos urandom n w Hn). fold k.
  split; [lia|]. split; [reflexivity|].
  intros bs Hbs Hlen. rewrite Hbs. cbn [fst].
  eexists. split; [reflexivity|]. split; [reflexivity|]. split.
  - apply expansion_prefix_length; lia.
  - intros i Hi. apply expansion_prefix_get; lia.
Qed.

Lemma generate_random_bits_algorithm_witness :
  snd (generate_random_bits fake_urandom 13 [5]) = [5; 2]
  /\ fst (generate_random_bits fake_urandom 13 [5]) = Ok "1010010110100".
Proof.
  destruct (generate_random_bits_algorithm fake_urandom 13 [5] ltac:(lia))
    as (_ & Hw & Hs).
  split; [exact Hw|].
  destruct (Hs (List.repeat xa5 2) eq_refl eq_refl) as (s & Hfst & -> & _).
  exact Hfst.
Defined.

(** C8, as amended: when the source fails to produce the requested bytes,
    [generate_random_bits] fails with the very exception the source raised
    (for instance [OSError]), not wrapped into an [EntropySourceUnavailable]
    error: the exception reaches the caller unchanged after the single
    request, there is no second attempt with another generator, and no
    string is returned. *)
Theorem generate_random_bits_source_failure
    (urandom : oracle) (n : Z) (w : world) (e : exn) :
  0 < n ->
  urandom w ((n + 7) / 8) = Raise e ->
  generate_random_bits urandom n w = (Raise e, (w ++ [(n + 7) / 8])%list)
  /\ forall s w', generate_random_bits urandom n w <> (Ok s, w').
Proof.
  intros Hn He. rewrite (generate_random_bits_pos urandom n w Hn), He.
  split; [reflexivity|]. intros s w' H. discriminate H.
Qed.

Lemma generate_random_bits_source_failure_witness :
  generate_random_bits broken_urandom 16 [] = (Raise OSError, [2]).
Proof.
  apply (generate_random_bits_source_failure broken_urandom 16 [] OSError).
  - lia.
  - reflexivity.
Defined.

(** C8 as stated fails: with a source that raises [OSError],
    [generate_random_bits 16] fails with [OSError], which is not an
    [EntropySourceUnavailable] error. *)
Lemma generate_random_bits_source_failure_untyped :
  broken_urandom [] ((16 + 7) / 8) = Raise OSError
  /\ fst (generate_random_bits broken_urandom 16 []) = Raise OSError
  /\ fst (generate_random_bits broken_urandom 16 [])
     <> Raise EntropySourceUnavailable.
Proof.
  split; [reflexivity|]. split; [reflexivity|].
  intros H. discriminate H.
Qed.

(** C9: for every integer [n <= 0], negative ones included,
    [generate_random_bits n] returns the empty string and makes no request
    to the source, whatever the source is. *)
Theorem generate_random_bits_nonpositive
    (urandom : oracle) (n : Z) (w : world) :
  n <= 0 ->
  generate_random_bits urandom n w = (Ok "", w).
Proof.
  intros Hn. unfold generate_random_bits.
  destruct (Z.leb_spec n 0) as [_|H]; [reflexivity | lia].
Qed.

Lemma generate_random_bits_nonpositive_witness :
  generate_random_bits broken_urandom (-5) [3] = (Ok "", [3]).
Proof.
  apply (generate_random_bits_nonpositive broken_urandom (-5) [3]). lia.
Defined.

(** ** binary64: a quotient of at most one does not overflow *)

Lemma digits2_pos_size (p : positive) : digits2_pos p = Pos.size p.
Proof. induction p as [p IH|p IH|]; simpl; now rewrite ?IH. Qed.

Lemma Zdigits2_le (m k : Z) : 0 <= m < 2 ^ k -> 0 <= k -> Zdigits2 m <= k.
Proof.
  intros [H0 Hm] Hk. destruct m as [|p|p]; simpl; [lia| |lia].
  rewrite digits2_pos_size.
  pose proof (Pos.size_le p) as Hs.
  apply Pos2Z.pos_le_pos in Hs. rewrite Pos2Z.inj_pow in Hs.
  change (Z.pos p~0) with (2 * Z.pos p) in Hs.
  assert (Hlt : 2 ^ Z.pos (Pos.size p) < 2 ^ (k + 1)).
  { rewrite Z.pow_add_r by lia. lia. }
  apply Z.pow_lt_mono_r_iff in Hlt; lia.
Qed.

Lemma shr_1_bounds (mrs : shr_record) :
  0 <= shr_m mrs -> 0 <= shr_m (shr_1 mrs) <= shr_m mrs.
Proof.
  destruct mrs as [m r s]. destruct m as [|[p|p|]|p]; simpl; lia.
Qed.

Lemma iter_shr_1_bounds (p : positive) (mrs : shr_record) :
  0 <= shr_m mrs -> 0 <= shr_m (iter_pos shr_1 p mrs) <= shr_m mrs.
Proof.
  revert mrs; induction p as [p IH|p IH|]; intros mrs H; simpl.
  - pose proof (shr_1_bounds mrs H) as H1.
    pose proof (IH _ (proj1 H1)) as H2.
    pose proof (IH _ (proj1 H2)). lia.
  - pose proof (IH _ H) as H1. pose proof (IH _ (proj1 H1)). lia.
  - apply shr_1_bounds, H.
Qed.

Lemma shr_fexp_bounds (m e : Z) (l : location) :
  0 <= m ->
  0 <= shr_m (fst (shr_fexp prec emax m e l)) <= m
  /\ (snd (shr_fexp prec emax m e l) = e
      \/ snd (shr_fexp prec emax m e l) = fexp prec emax (Zdigits2 m + e)).
Proof.
  intros Hm. unfold shr_fexp, shr.
  assert (Hrec : shr_m (shr_record_of_loc m l) = m)
    by (destruct l as [|[]]; reflexivity).
  destruct (fexp prec emax (Zdigits2 m + e) - e) as [|p|p] eqn:E; cbn [fst snd].
  - rewrite Hrec. split; [lia | now left].
  - split; [|right; lia].
    pose proof (iter_shr_1_bounds p (shr_record_of_loc m l)) as H.
    rewrite Hrec in H. auto.
  - rewrite Hrec. split; [lia | now left].
Qed.

Lemma round_nearest_even_bounds (m : Z) (l : location) :
  0 <= m -> 0 <= round_nearest_even m l <= m + 1.
Proof.
  intros Hm. destruct l as [|[]]; simpl; try lia.
  destruct (Z.even m); lia.
Qed.

Lemma fexp_binary64 (x : Z) : fexp prec emax x = Z.max (x - 53) (-1074).
Proof. reflexivity. Qed.

(** Rounding a mantissa below [2 ^ k] at an exponent [e <= 1 - k] never
    produces an infinity. *)
Lemma binary_round_aux_finite (sx : bool) (m e k : Z) (l : location) :
  0 <= m < 2 ^ k -> 0 <= k <= 1075 -> k + e <= 1 ->
  forall s, binary_round_aux prec emax sx m e l <> S754_infinity s.
Proof.
  intros Hm Hk He s. unfold binary_round_aux.
  pose proof (shr_fexp_bounds m e l (proj1 Hm)) as [Hm1 He1].
  pose proof (Zdigits2_le m k Hm (proj1 Hk)) as Hd.
  destruct (shr_fexp prec emax m e l) as [mrs1 e1]. cbn [fst snd] in Hm1, He1.
  set (m2 := round_nearest_even (shr_m mrs1) (loc_of_shr_record mrs1)).
  pose proof (round_nearest_even_bounds (shr_m mrs1) (loc_of_shr_record mrs1)
                (proj1 Hm1)) as Hm2.
  fold m2 in Hm2.
  assert (Hm2k : 0 <= m2 < 2 ^ (k + 1)).
  { rewrite Z.pow_add_r by lia. lia. }
  pose proof (Zdigits2_le m2 (k + 1) Hm2k ltac:(lia)) as Hd2.
  pose proof (shr_fexp_bounds m2 e1 loc_Exact (proj1 Hm2)) as [_ He2].
  destruct (shr_fexp prec emax m2 e1 loc_Exact) as [mrs2 e2].
  cbn [fst snd] in He2.
  assert (Hle : e2 <= 971).
  { rewrite !fexp_binary64 in *. lia. }
  destruct (shr_m mrs2); try discriminate.
  change (emax - prec) with 971.
  destruct (Z.leb_spec e2 971); [discriminate | lia].
Qed.

Lemma true_divide_ok (a n : Z) :
  0 <= a <= n -> 0 < n -> exists q, true_divide a n = Ok q.
Proof.
  intros Ha Hn. unfold true_divide.
  destruct (Z.eqb_spec n 0) as [->|_]; [lia|].
  destruct n as [|pn|pn]; try lia.
  destruct a as [|pa|pa]; try lia.
  { eexists; reflexivity. }
  cbn [float_of_int_exact SFdiv xorb].
  unfold SFdiv_core_binary.
  set (e' := Z.min (fexp prec emax (Zdigits2 (Z.pos pa) + 0
                                    - (Zdigits2 (Z.pos pn) + 0))) (0 - 0)).
  assert (He' : -1074 <= e' <= 0).
  { unfold e'. rewrite fexp_binary64. lia. }
  set (m' := match 0 - 0 - e' with
             | 0 => Z.pos pa
             | Z.pos _ => Z.shiftl (Z.pos pa) (0 - 0 - e')
             | Z.neg _ => 0
             end).
  assert (Hm' : m' = Z.pos pa * 2 ^ (- e')).
  { unfold m'. replace (0 - 0 - e') with (- e') by lia.
    destruct (- e') as [|p|p] eqn:E; try lia.
    rewrite Z.shiftl_mul_pow2 by lia. reflexivity. }
  pose proof (Z.pow_pos_nonneg 2 (- e') ltac:(lia) ltac:(lia)) as Hpow.
  assert (Hq : 0 <= m' / Z.pos pn < 2 ^ (- e' + 1)).
  { split.
    - apply Z.div_pos; nia.
    - rewrite Z.pow_add_r by lia.
      apply Z.div_lt_upper_bound; nia. }
  unfold Z.div in Hq.
  destruct (Z.div_eucl m' (Z.pos pn)) as [q r].
  pose proof (binary_round_aux_finite false q e' (- e' + 1)
                (new_location (Z.pos pn) r)
                Hq ltac:(lia) ltac:(lia)) as Hfin.
  destruct (binary_round_aux prec emax false q e'
              (new_location (Z.pos pn) r)) as [s|s| |s m e];
    try (eexists; reflexivity).
  exfalso. exact (Hfin s eq_refl).
Qed.

(** ** [bit_stats] *)

Lemma count_bounds (c : ascii) (s : string) : 0 <= count c s <= len s.
Proof.
  unfold len. induction s as [|a s IH]; cbn [String.length count].
  - lia.
  - destruct (Ascii.eqb a c); lia.
Qed.

Lemma count_complement (c : ascii) (s : string) :
  len s - count c s = count_if (fun a => negb (Ascii.eqb a c)) s.
Proof.
  unfold len. induction s as [|a s IH]; cbn [String.length count count_if].
  - reflexivity.
  - destruct (Ascii.eqb a c); cbn [negb]; lia.
Qed.

Lemma count_ones_bitstring (s : string) :
  is_bitstring s = true -> len s - count "0" s = count "1" s.
Proof.
  unfold len. induction s as [|a s IH];
    cbn [String.length count is_bitstring]; intros H.
  - reflexivity.
  - apply andb_true_iff in H as [Ha Hs]. specialize (IH Hs).
    unfold is_bit in Ha. apply orb_true_iff in Ha as [Ha|Ha];
      apply Ascii.eqb_eq in Ha; subst a;
      change (Ascii.eqb "0" "0") with true;
      change (Ascii.eqb "1" "1") with true;
      change (Ascii.eqb "0" "1") with false;
      change (Ascii.eqb "1" "0") with false; lia.
Qed.

Lemma _h_total (l : float -> float) (p : float) : exists v, _h l p = Ok v.
Proof.
  unfold _h. destruct p as [s|s| |s m e]; try destruct s; simpl;
    eexists; reflexivity.
Qed.

Lemma _h_zero (l : float -> float) (p : float) :
  SFeqb p fzero = true -> _h l p = Ok fzero.
Proof.
  destruct p as [s|s| |s m e]; try destruct s; simpl; try discriminate;
    reflexivity.
Qed.

(** [bit_stats] returns, with the counts read off the string. *)
Lemma bit_stats_ok (l : float -> float) (s : string) :
  exists e,
    bit_stats l s = Ok (Stats.mk (len s) (count "0" s) (len s - count "0" s) e).
Proof.
  unfold bit_stats. pose proof (count_bounds "0" s) as Hc.
  assert (Hp : forall a, 0 <= a <= len s ->
             exists p, (if int_truthy (len s) then true_divide a (len s)
                        else Ok fzero) = Ok p).
  { intros a Ha. unfold int_truthy.
    destruct (Z.eqb_spec (len s) 0) as [_|Hne]; simpl.
    - eexists; reflexivity.
    - apply true_divide_ok; lia. }
  destruct (Hp (count "0" s) ltac:(lia)) as [p0 ->].
  destruct (Hp (len s - count "0" s) ltac:(lia)) as [p1 ->].
  destruct (_h_total l p0) as [h0 E0]. destruct (_h_total l p1) as [h1 E1].
  cbn [rbind]. rewrite E0. cbn [rbind]. rewrite E1. cbn [rbind].
  eexists; reflexivity.
Qed.

(** C4: for every bit string [seq], [bit_stats seq] returns [zeros] equal
    to the number of ['0'] symbols and [ones] equal to the length minus
    [zeros] (which is the number of ['1'] symbols), and
    [zeros + ones = length]. *)
Theorem bit_stats_counts (l : float -> float) (seq : string) :
  is_bitstring seq = true ->
  exists st,
    bit_stats l seq = Ok st
    /\ Stats.length st = len seq
    /\ Stats.zeros st = count "0" seq
    /\ Stats.ones st = Stats.length st - Stats.zeros st
    /\ Stats.ones st = count "1" seq
    /\ Stats.zeros st + Stats.ones st = Stats.length st.
Proof.
  intros Hbits. destruct (bit_stats_ok l seq) as [e ->].
  pose proof (count_ones_bitstring seq Hbits) as H1.
  eexists. split; [reflexivity|].
  cbn [Stats.length Stats.zeros Stats.ones]. repeat split; lia.
Qed.

Lemma bit_stats_counts_witness :
  exists st,
    bit_stats (fun _ => fzero) "0010" = Ok st
    /\ Stats.length st = 4 /\ Stats.zeros st = 3 /\ Stats.ones st = 1.
Proof.
  destruct (bit_stats_counts (fun _ => fzero) "0010" eq_refl)
    as (st & Hst & Hl & Hz & _ & Ho & _).
  exists st. repeat split; assumption.
Defined.

(** C10: [bit_stats] is defined on every string, not only on bit strings:
    [zeros] is the number of ['0'] characters, [ones] is the length minus
    that number, so [ones] counts every character other than ['0'], and
    [zeros + ones = length]. *)
Theorem bit_stats_any_string (l : float -> float) (s : string) :
  exists st,
    bit_stats l s = Ok st
    /\ Stats.length st = len s
    /\ Stats.zeros st = count "0" s
    /\ Stats.ones st = len s - count "0" s
    /\ Stats.ones st = count_if (fun a => negb (Ascii.eqb a "0")) s
    /\ Stats.zeros st + Stats.ones st = Stats.length st.
Proof.
  destruct (bit_stats_ok l s) as [e ->].
  pose proof (count_complement "0" s) as H1.
  eexists. split; [reflexivity|].
  cbn [Stats.length Stats.zeros Stats.ones]. repeat split; lia.
Qed.

(** On ["0a1b"] the two letters are counted as ones. *)
Example bit_stats_letters (l : float -> float) :
  exists e, bit_stats l "0a1b" = Ok (Stats.mk 4 1 3 e).
Proof. destruct (bit_stats_ok l "0a1b") as [e H]. exists e. exact H. Qed.

(** Without the guard the logarithm would raise at zero. *)
Example math_log2_zero (l : float -> float) :
  math_log2 l fzero = Raise ValueError.
Proof. reflexivity. Qed.

(** C5: [bit_stats] returns on every string, whatever the C library's
    [log2] computes: the entropy term of a probability equal to zero is the
    constant [0.0], taken by the guard without calling the logarithm, and
    for the empty string both counts are [0] and the entropy is [0.0], no
    division being made. *)
Theorem bit_stats_total (l : float -> float) :
  (forall bits, exists st, bit_stats l bits = Ok st)
  /\ (forall p, exists v, _h l p = Ok v)
  /\ (forall p, SFeqb p fzero = true -> _h l p = Ok fzero)
  /\ bit_stats l "" = Ok (Stats.mk 0 0 0 fzero).
Proof.
  split; [|split; [|split]].
  - intros bits. destruct (bit_stats_ok l bits) as [e H]. eexists; exact H.
  - apply _h_total.
  - apply _h_zero.
  - reflexivity.
Qed.

(** The test vectors of the entropy, for a C library whose [log2] is exact
    at [1.0] and at [0.5]. *)
Lemma bit_stats_vectors (l : float -> float) :
  l fone = fzero -> l fhalf = fneg fone ->
  bit_stats l "" = Ok (Stats.mk 0 0 0 fzero)
  /\ bit_stats l "0000" = Ok (Stats.mk 4 4 0 fzero)
  /\ bit_stats l "01" = Ok (Stats.mk 2 1 1 fone).
Proof.
  intros H1 Hh. split; [reflexivity|]. split.
  - unfold bit_stats. cbn -[fadd fmul fneg]. change (S754_finite false 4503599627370496 (-52)) with fone.
    rewrite H1. reflexivity.
  - unfold bit_stats. cbn -[fadd fmul fneg]. change (S754_finite false 4503599627370496 (-53)) with fhalf.
    rewrite Hh. reflexivity.
Qed.

(** ** The length handed to the generator *)

Lemma clamp_n_bits_range (z : Z) : 1 <= clamp_n_bits z <= MAX_BITS.
Proof. unfold clamp_n_bits, MAX_BITS. lia. Qed.

Lemma parse_n_bits_int (length : pyval) (z : Z) :
  py_int length = Ok z -> parse_n_bits length = z.
Proof.
  intros H. unfold parse_n_bits. rewrite H.
  destruct length; try reflexivity. discriminate H.
Qed.

Lemma parse_n_bits_default (length : pyval) (e : exn) :
  py_int length = Raise e -> parse_n_bits length = DEFAULT_BITS.
Proof.
  intros H. unfold parse_n_bits. rewrite H. destruct length; reflexivity.
Qed.

Lemma int_of_str_nonempty (s : string) (z : Z) :
  int_of_str s = Ok z -> str_truthy s = true.
Proof. destruct s; [discriminate | reflexivity]. Qed.

(** A non-empty query value is the value bound to [length]. *)
Lemma api_generate_length_args (req : request) (s : string) :
  args_length req = Some s -> str_truthy s = true ->
  api_generate_length req = Ok (PyStr s).
Proof. intros Ha Hs. unfold api_generate_length. now rewrite Ha, Hs. Qed.

(** What holds of the default: a [length] that is [None] (a JSON body
    without the key) and a [length] on which [int] raises both give 256. *)
Lemma api_generate_n_bits_default (req : request) (length : pyval) :
  api_generate_length req = Ok length ->
  length = PyNone \/ (exists e, py_int length = Raise e) ->
  api_generate_n_bits req = Ok 256.
Proof.
  intros Hl H. unfold api_generate_n_bits. rewrite Hl. cbn [rbind].
  destruct H as [->|[e He]]; [reflexivity|].
  now rewrite (parse_n_bits_default _ _ He).
Qed.

Example api_generate_n_bits_not_a_number (j : bool) (body : option pyval) :
  api_generate_n_bits (mk_request (Some "not-a-number") j body) = Ok 256.
Proof. reflexivity. Qed.

Example api_generate_n_bits_separator (j : bool) (body : option pyval) :
  api_generate_n_bits (mk_request (Some (String "031" "12")) j body) = Ok 256.
Proof. reflexivity. Qed.

Example api_generate_n_bits_json_without_key :
  api_generate_n_bits (mk_request None true (Some (PyDict []))) = Ok 256.
Proof. reflexivity. Qed.

(** C1, at the input where it fails: a request with no [length] in the
    query string and no JSON body binds [False] to [length], [int(False)] is
    [0], and the effective length is [1], not the default 256.  The same
    happens for an empty query value. *)
Theorem api_generate_n_bits_absent_length :
  api_generate_length (mk_request None false None) = Ok (PyBool false)
  /\ api_generate_n_bits (mk_request None false None) = Ok 1
  /\ api_generate_n_bits (mk_request (Some "") false None) = Ok 1
  /\ 1 <> DEFAULT_BITS.
Proof. repeat split. discriminate. Qed.

(** Every request whose [length] value is obtained reaches the generator
    with a length between [1] and [MAX_BITS], and the request made to the
    source is for that length. *)
Lemma api_generate_n_bits_range
    (urandom : oracle) (l : float -> float) (w : world)
    (req : request) (length : pyval) :
  api_generate_length req = Ok length ->
  exists n, api_generate_n_bits req = Ok n
            /\ 1 <= n <= MAX_BITS
            /\ snd (api_generate urandom l req w) = (w ++ [(n + 7) / 8])%list.
Proof.
  intros Hl.
  pose proof (clamp_n_bits_range (parse_n_bits length)) as Hr.
  exists (clamp_n_bits (parse_n_bits length)).
  unfold api_generate, bind, lift, api_generate_n_bits.
  rewrite Hl. cbn [rbind].
  split; [reflexivity|]. split; [exact Hr|].
  rewrite generate_random_bits_pos by lia.
  destruct (urandom w _) as [bs|e]; [|reflexivity].
  destruct (bit_stats l _); reflexivity.
Qed.

(** C7: whenever [int] accepts the value bound to [length], the effective
    length is the parsed value brought into [[1, MAX_BITS]]: [1] below the
    range, [MAX_BITS] above it, the value itself inside; the step raises
    nothing, and for every request the length handed to the generator is
    between [1] and [MAX_BITS = 262144]. *)
Theorem api_generate_n_bits_clamped
    (req : request) (length : pyval) (z : Z) :
  api_generate_length req = Ok length ->
  py_int length = Ok z ->
  api_generate_n_bits req = Ok (Z.max 1 (Z.min z MAX_BITS))
  /\ (z < 1 -> api_generate_n_bits req = Ok 1)
  /\ (MAX_BITS < z -> api_generate_n_bits req = Ok MAX_BITS)
  /\ (1 <= z <= MAX_BITS -> api_generate_n_bits req = Ok z)
  /\ MAX_BITS = 262144
  /\ (forall urandom l w req' length',
      api_generate_length req' = Ok length' ->
      exists n, api_generate_n_bits req' = Ok n
                /\ 1 <= n <= MAX_BITS
                /\ snd (api_generate urandom l req' w)
                   = (w ++ [(n + 7) / 8])%list).
Proof.
  intros Hl Hz.
  assert (E : api_generate_n_bits req = Ok (Z.max 1 (Z.min z MAX_BITS))).
  { unfold api_generate_n_bits. rewrite Hl. cbn [rbind].
    now rewrite (parse_n_bits_int _ _ Hz). }
  split; [exact E|]. rewrite E.
  split; [intros H; f_equal; unfold MAX_BITS; lia|].
  split; [intros H; f_equal; unfold MAX_BITS in *; lia|].
  split; [intros H; f_equal; unfold MAX_BITS in *; lia|].
  split; [reflexivity|].
  intros urandom l w req' length'. apply api_generate_n_bits_range.
Qed.

Lemma api_generate_n_bits_clamped_witness :
  api_generate_n_bits (mk_request (Some "99999999") false None) = Ok 262144.
Proof.
  exact (proj1 (api_generate_n_bits_clamped
                  (mk_request (Some "99999999") false None)
                  (PyStr "99999999") 99999999 eq_refl eq_refl)).
Defined.

Example api_generate_n_bits_zero (j : bool) (body : option pyval) :
  api_generate_n_bits (mk_request (Some "0") j body) = Ok 1.
Proof. reflexivity. Qed.

(** A query value that [int] accepts is never empty, so it is the value
    that is clamped. *)
Lemma api_generate_n_bits_query (req : request) (s : string) (z : Z) :
  args_length req = Some s -> int_of_str s = Ok z ->
  api_generate_n_bits req = Ok (Z.max 1 (Z.min z MAX_BITS)).
Proof.
  intros Ha Hz. unfold api_generate_n_bits.
  rewrite (api_generate_length_args req s Ha (int_of_str_nonempty s z Hz)).
  cbn [rbind]. now rewrite (parse_n_bits_int (PyStr s) z Hz).
Qed.

(** * Further properties of the handler *)

(** ** Which requests fail before any bit is generated *)

(** X1: resolving the length fails exactly for a JSON request whose query
    string carries no (or an empty) [length] and whose body either does not
    decode ([BadRequest]) or decodes to something that is not an object
    ([AttributeError]); every other request resolves. *)
Theorem api_generate_n_bits_failure (req : request) (e : exn) :
  api_generate_n_bits req = Raise e <->
  (args_length req = None \/ args_length req = Some "")
  /\ is_json req = true
  /\ ((json req = None /\ e = BadRequest)
      \/ (exists v, json req = Some v
                    /\ (forall d, v <> PyDict d) /\ e = AttributeError)).
Proof.
  unfold api_generate_n_bits, api_generate_length, json_get_length.
  destruct req as [a j b]; cbn [args_length is_json json].
  split.
  - intros H.
    assert (Ha : a = None \/ a = Some "").
    { destruct a as [[|c s]|]; auto. discriminate H. }
    split; [exact Ha|].
    assert (Hj : j = true).
    { destruct j; [reflexivity|]. destruct Ha as [-> | ->]; discriminate H. }
    split; [exact Hj|]. subst j.
    assert (Hb : rbind match b with
                       | None => Raise BadRequest
                       | Some (PyDict d) => Ok (dict_get d "length")
                       | Some _ => Raise AttributeError
                       end
                   (fun length => Ok (clamp_n_bits (parse_n_bits length)))
                 = Raise e).
    { destruct Ha as [-> | ->]; exact H. }
    destruct b as [v|]; [right | left].
    + exists v. split; [reflexivity|].
      destruct v; cbn [rbind] in Hb; try discriminate Hb;
        (split; [intros d; discriminate | congruence]).
    + cbn [rbind] in Hb. split; [reflexivity | congruence].
  - intros (Ha & Hj & Hb). subst j.
    assert (E : rbind match b with
                      | None => Raise BadRequest
                      | Some (PyDict d) => Ok (dict_get d "length")
                      | Some _ => Raise AttributeError
                      end
                  (fun length => Ok (clamp_n_bits (parse_n_bits length)))
                = Raise e).
    { destruct Hb as [[-> ->] | (v & -> & Hv & ->)]; [reflexivity|].
      destruct v; try reflexivity. exfalso. exact (Hv d eq_refl). }
    destruct Ha as [-> | ->]; exact E.
Qed.

(** X2: a request that fails while its length is resolved raises that
    exception from the handler without any request to the randomness
    source. *)
Theorem api_generate_early_failure
    (urandom : oracle) (l : float -> float)
    (req : request) (e : exn) (w : world) :
  api_generate_n_bits req = Raise e ->
  api_generate urandom l req w = (Raise e, w).
Proof.
  intros H. unfold api_generate, bind, lift. now rewrite H.
Qed.

Lemma api_generate_early_failure_witness :
  api_generate broken_urandom (fun _ => fzero)
    (mk_request None true (Some (PyList []))) [4] = (Raise AttributeError, [4]).
Proof.
  apply (api_generate_early_failure broken_urandom (fun _ => fzero)
           (mk_request None true (Some (PyList []))) AttributeError [4]).
  reflexivity.
Defined.

(** X3: a non-empty [length] in the query string decides the effective
    length alone: the content type and the body of the request are not
    looked at, so such a request never fails in the resolution. *)
Theorem api_generate_n_bits_query_precedence
    (s : string) (j j' : bool) (body body' : option pyval) :
  s <> "" ->
  api_generate_n_bits (mk_request (Some s) j body)
  = api_generate_n_bits (mk_request (Some s) j' body')
  /\ api_generate_n_bits (mk_request (Some s) j body)
     = Ok (clamp_n_bits (parse_n_bits (PyStr s))).
Proof.
  intros Hs. destruct s as [|c s]; [congruence|]. split; reflexivity.
Qed.

Lemma api_generate_n_bits_query_precedence_witness :
  api_generate_n_bits (mk_request (Some "12") true (Some (PyList [])))
  = api_generate_n_bits (mk_request (Some "12") false None).
Proof.
  apply (api_generate_n_bits_query_precedence "12" true false
           (Some (PyList [])) None).
  discriminate.
Defined.

(** ** The response *)

Lemma n_bytes_range (n : Z) :
  1 <= n <= MAX_BITS -> 1 <= (n + 7) / 8 <= 32768.
Proof.
  unfold MAX_BITS. intros H.
  pose proof (n_bytes_ceil n ltac:(lia)). lia.
Qed.

Lemma api_generate_n_bits_in_range (req : request) (n : Z) :
  api_generate_n_bits req = Ok n -> 1 <= n <= MAX_BITS.
Proof.
  unfold api_generate_n_bits. intros Hn.
  destruct (api_generate_length req) as [v|]; [|discriminate Hn].
  cbn [rbind] in Hn. injection Hn as <-. apply clamp_n_bits_range.
Qed.

(** X4: when the length resolves to [n] and the source answers the request,
    the handler returns a response whose [bits] are [n] symbols over
    ['0']/['1'], whose statistics are those of these very bits ([length = n],
    [zeros] and [ones] the numbers of ['0'] and ['1'], summing to [n]) and
    whose [source] is ["secrets"]. *)
Theorem api_generate_response
    (urandom : oracle) (l : float -> float)
    (req : request) (n : Z) (w : world) :
  api_generate_n_bits req = Ok n ->
  delivers urandom w ((n + 7) / 8) ->
  exists resp,
    api_generate urandom l req w = (Ok resp, (w ++ [(n + 7) / 8])%list)
    /\ 1 <= n <= MAX_BITS
    /\ len (bits resp) = n
    /\ is_bitstring (bits resp) = true
    /\ Stats.length (stats resp) = n
    /\ Stats.zeros (stats resp) = count "0" (bits resp)
    /\ Stats.ones (stats resp) = count "1" (bits resp)
    /\ Stats.zeros (stats resp) + Stats.ones (stats resp) = n
    /\ source resp = "secrets".
Proof.
  intros Hn (bs & Hbs & Hlen).
  pose proof (api_generate_n_bits_in_range req n Hn) as Hr.
  pose proof (n_bytes_ceil n ltac:(lia)) as Hc.
  unfold api_generate, bind, lift. rewrite Hn.
  rewrite generate_random_bits_pos by lia. rewrite Hbs.
  set (s := take (Z.to_nat n) (join (map format_08b bs))).
  assert (Hs : len s = n) by (apply expansion_prefix_length; lia).
  assert (Hb : is_bitstring s = true) by apply is_bitstring_take, join_bits.
  destruct (bit_stats_ok l s) as [e ->].
  pose proof (count_ones_bitstring s Hb) as H1.
  eexists. split; [reflexivity|].
  cbn [bits stats source Stats.length Stats.zeros Stats.ones].
  repeat split; try assumption; lia.
Qed.

Lemma api_generate_response_witness :
  exists resp,
    api_generate fake_urandom (fun _ => fzero)
      (mk_request (Some "16") false None) [] = (Ok resp, [2])
    /\ bits resp = "1010010110100101".
Proof.
  destruct (api_generate_response fake_urandom (fun _ => fzero)
              (mk_request (Some "16") false None) 16 [] eq_refl)
    as (resp & Hresp & _).
  - exists (List.repeat xa5 2). split; reflexivity.
  - exists resp. split; [exact Hresp|].
    vm_compute in Hresp. injection Hresp as <-. reflexivity.
Defined.

(** X5: whatever the source does, a request whose length resolves makes
    exactly one request to it, for at least 1 and at most 32768 bytes. *)
Theorem api_generate_single_bounded_draw
    (urandom : oracle) (l : float -> float)
    (req : request) (n : Z) (w : world) :
  api_generate_n_bits req = Ok n ->
  exists k, snd (api_generate urandom l req w) = (w ++ [k])%list
            /\ k = (n + 7) / 8 /\ 1 <= k <= 32768.
Proof.
  intros Hn.
  pose proof (api_generate_n_bits_in_range req n Hn) as Hr.
  exists ((n + 7) / 8). split; [|split; [reflexivity | now apply n_bytes_range]].
  unfold api_generate, bind, lift. rewrite Hn.
  rewrite generate_random_bits_pos by lia.
  destruct (urandom w _) as [bs|e]; [|reflexivity].
  destruct (bit_stats l _); reflexivity.
Qed.

Lemma api_generate_single_bounded_draw_witness :
  exists k, snd (api_generate broken_urandom (fun _ => fzero)
                   (mk_request (Some "99999999") false None) [])
            = ([] ++ [k])%list
            /\ k = (262144 + 7) / 8 /\ 1 <= k <= 32768.
Proof.
  apply (api_generate_single_bounded_draw broken_urandom (fun _ => fzero)
           (mk_request (Some "99999999") false None) 262144 []).
  reflexivity.
Defined.

(** X6: when the source fails, the handler raises the exception of the
    source and builds no response. *)
Theorem api_generate_source_failure
    (urandom : oracle) (l : float -> float)
    (req : request) (n : Z) (w : world) (e : exn) :
  api_generate_n_bits req = Ok n ->
  urandom w ((n + 7) / 8) = Raise e ->
  api_generate urandom l req w = (Raise e, (w ++ [(n + 7) / 8])%list).
Proof.
  intros Hn He.
  pose proof (api_generate_n_bits_in_range req n Hn) as Hr.
  unfold api_generate, bind, lift. rewrite Hn.
  rewrite generate_random_bits_pos by lia. now rewrite He.
Qed.

Lemma api_generate_source_failure_witness :
  api_generate broken_urandom (fun _ => fzero)
    (mk_request (Some "16") false None) [] = (Raise OSError, [2]).
Proof.
  apply (api_generate_source_failure broken_urandom (fun _ => fzero)
           (mk_request (Some "16") false None) 16 [] OSError); reflexivity.
Defined.

(** * Further properties of [generate_random_bits] *)

Lemma take_drop (k : nat) (s : string) : take k s ++ drop k s = s.
Proof.
  revert s; induction k as [|k IH]; intros [|c s]; simpl; try reflexivity.
  now rewrite IH.
Qed.

Lemma length_drop (k : nat) (s : string) :
  String.length (drop k s) = (String.length s - k)%nat.
Proof.
  revert s; induction k as [|k IH]; intros [|c s]; simpl; try reflexivity.
  apply IH.
Qed.

Lemma take_all (k : nat) (s : string) :
  (String.length s <= k)%nat -> take k s = s.
Proof.
  revert s; induction k as [|k IH]; intros [|c s] H; simpl in *;
    try reflexivity; try lia.
  rewrite IH; [reflexivity | lia].
Qed.

Lemma take_app_le (k : nat) (a b : string) :
  (k <= String.length a)%nat -> take k (a ++ b) = take k a.
Proof.
  revert a; induction k as [|k IH]; intros [|c a] H; simpl in *;
    try reflexivity; try lia.
  rewrite IH; [reflexivity | lia].
Qed.

Lemma take_app_ge (m : nat) (a b : string) :
  take (String.length a + m) (a ++ b) = a ++ take m b.
Proof. induction a as [|c a IH]; simpl; [reflexivity | now rewrite IH]. Qed.

Lemma drop_app (a b : string) : drop (String.length a) (a ++ b) = b.
Proof. induction a as [|c a IH]; simpl; [reflexivity | exact IH]. Qed.

Lemma is_bitstring_drop (k : nat) (s : string) :
  is_bitstring s = true -> is_bitstring (drop k s) = true.
Proof.
  revert s; induction k as [|k IH]; intros [|c s]; simpl; auto.
  intros H; apply andb_true_iff in H as [_ Hs]. now apply IH.
Qed.

Lemma is_bit_cases (c : ascii) :
  is_bit c = true -> c = "0"%char \/ c = "1"%char.
Proof.
  unfold is_bit. intros H. apply orb_true_iff in H as [H|H];
    apply Ascii.eqb_eq in H; auto.
Qed.

(** ** One block, read back *)

Lemma byte_of_block_format (b : byte) : byte_of_block (format_08b b) = b.
Proof. destruct b; reflexivity. Qed.

Ltac next_symbol s H :=
  destruct s as [|?c s]; [reflexivity|];
  cbn [is_bitstring] in H;
  let Hc := fresh "Hc" in
  apply andb_true_iff in H as [Hc H];
  apply is_bit_cases in Hc as [-> | ->].

Lemma format_byte_of_block (s : string) :
  is_bitstring s = true ->
  take (String.length (take 8 s)) (format_08b (byte_of_block (take 8 s)))
  = take 8 s.
Proof.
  intros H. do 8 (next_symbol s H); reflexivity.
Qed.

(** ** The expansion, read back *)

Lemma pack_join (bs : list byte) :
  pack (List.length bs) (join (map format_08b bs)) = bs.
Proof.
  induction bs as [|b bs IH]; [reflexivity|].
  cbn [List.length map join pack].
  pose proof (format_08b_length b) as Hb.
  rewrite take_app_le by lia. rewrite take_all by lia.
  rewrite byte_of_block_format. f_equal.
  rewrite <- Hb at 1. rewrite drop_app. exact IH.
Qed.

Lemma length_pack (k : nat) (s : string) : List.length (pack k s) = k.
Proof. revert s; induction k as [|k IH]; intros s; simpl; auto. Qed.

Lemma join_pack (k : nat) (s : string) :
  is_bitstring s = true -> (String.length s <= 8 * k)%nat ->
  take (String.length s) (join (map format_08b (pack k s))) = s.
Proof.
  revert s; induction k as [|k IH]; intros s Hs Hk.
  - destruct s; [reflexivity | simpl in Hk; lia].
  - cbn [pack map join].
    set (F := format_08b (byte_of_block (take 8 s))).
    assert (HF : String.length F = 8%nat) by apply format_08b_length.
    pose proof (format_byte_of_block s Hs) as HA. fold F in HA.
    pose proof (length_take 8 s) as Ht.
    destruct (Nat.le_gt_cases (String.length s) 8) as [Hle|Hgt].
    + rewrite take_app_le by lia.
      rewrite (take_all 8 s Hle) in HA. exact HA.
    + assert (Ht8 : String.length (take 8 s) = 8%nat) by lia.
      rewrite Ht8 in HA. rewrite take_all in HA by lia.
      rewrite HA.
      replace (String.length s)
        with (String.length (take 8 s) + String.length (drop 8 s))%nat
        by (rewrite <- length_app, take_drop; reflexivity).
      rewrite take_app_ge.
      rewrite IH.
      * apply take_drop.
      * now apply is_bitstring_drop.
      * rewrite length_drop. lia.
Qed.

(** X7: [generate_random_bits] does not check what the source returns: for
    [n > 0] and any answer [bs], the result is a string over ['0']/['1'] of
    [min(n, 8 * len(bs))] symbols, so never more than [n]. *)
Theorem generate_random_bits_any_answer
    (urandom : oracle) (n : Z) (w : world) (bs : list byte) :
  0 < n ->
  urandom w ((n + 7) / 8) = Ok bs ->
  exists s,
    generate_random_bits urandom n w = (Ok s, (w ++ [(n + 7) / 8])%list)
    /\ len s = Z.min n (8 * Z.of_nat (List.length bs))
    /\ is_bitstring s = true.
Proof.
  intros Hn Hbs. rewrite (generate_random_bits_pos urandom n w Hn), Hbs.
  eexists. split; [reflexivity|]. split.
  - unfold len. rewrite length_take, join_length. lia.
  - apply is_bitstring_take, join_bits.
Qed.

Lemma generate_random_bits_any_answer_witness :
  exists s,
    generate_random_bits (constant_urandom [xff]) 100 [] = (Ok s, [13])
    /\ len s = 8.
Proof.
  destruct (generate_random_bits_any_answer (constant_urandom [xff]) 100 [] [xff]
              ltac:(lia) eq_refl) as (s & Hs & Hl & _).
  exists s. split; [exact Hs | exact Hl].
Defined.

(** X8: the bytes of the source are written out in full and only a tail of
    fewer than eight symbols is cut off: the expansion of the bytes is the
    result followed by [8 * ceil(n / 8) - n] symbols, and nothing is cut
    when [n] is a multiple of eight. *)
Theorem generate_random_bits_dropped_tail
    (urandom : oracle) (n : Z) (w : world) (bs : list byte) :
  0 < n ->
  urandom w ((n + 7) / 8) = Ok bs ->
  Z.of_nat (List.length bs) = (n + 7) / 8 ->
  exists s tail,
    fst (generate_random_bits urandom n w) = Ok s
    /\ join (map format_08b bs) = s ++ tail
    /\ len tail = 8 * ((n + 7) / 8) - n
    /\ 0 <= len tail < 8
    /\ (n mod 8 = 0 -> tail = "" /\ s = join (map format_08b bs)).
Proof.
  intros Hn Hbs Hlen. pose proof (n_bytes_ceil n Hn) as Hc.
  rewrite (generate_random_bits_pos urandom n w Hn), Hbs. cbn [fst].
  set (E := join (map format_08b bs)).
  assert (HE : String.length E = (8 * List.length bs)%nat)
    by apply join_length.
  exists (take (Z.to_nat n) E), (drop (Z.to_nat n) E).
  assert (Ht : len (drop (Z.to_nat n) E) = 8 * ((n + 7) / 8) - n).
  { unfold len. rewrite length_drop. lia. }
  split; [reflexivity|]. split; [symmetry; apply take_drop|].
  split; [exact Ht|]. split; [lia|].
  intros Hm.
  assert (Hz : 8 * ((n + 7) / 8) = n).
  { pose proof (Z.div_mod n 8 ltac:(lia)) as Hd. rewrite Hm in Hd.
    replace (n + 7) with (7 + (n / 8) * 8) by lia.
    rewrite Z.div_add by lia. change (7 / 8) with 0. lia. }
  assert (Hd : drop (Z.to_nat n) E = "").
  { destruct (drop (Z.to_nat n) E) eqn:D; [reflexivity|].
    unfold len in Ht. simpl String.length in Ht. lia. }
  split; [exact Hd|]. apply take_all. lia.
Qed.

Lemma generate_random_bits_dropped_tail_witness :
  exists s tail,
    fst (generate_random_bits fake_urandom 13 []) = Ok s
    /\ "1010010110100101" = s ++ tail /\ len tail = 3.
Proof.
  destruct (generate_random_bits_dropped_tail fake_urandom 13 []
              (List.repeat xa5 2) ltac:(lia) eq_refl eq_refl)
    as (s & tail & Hs & He & Hl & _).
  exists s, tail. repeat split; assumption.
Defined.

(** X9: a whole number of bytes is written without loss: for [n = 8 * k] the
    bytes of the source are read back from the result, so two different
    answers of the source give two different results. *)
Theorem generate_random_bits_lossless
    (urandom : oracle) (w : world) (bs : list byte) :
  bs <> [] ->
  let k := Z.of_nat (List.length bs) in
  urandom w k = Ok bs ->
  exists s,
    generate_random_bits urandom (8 * k) w = (Ok s, (w ++ [k])%list)
    /\ pack (List.length bs) s = bs.
Proof.
  intros Hne k Hbs.
  assert (Hk : 0 < k) by (destruct bs; [congruence | subst k; simpl; lia]).
  assert (E : (8 * k + 7) / 8 = k).
  { replace (8 * k + 7) with (7 + k * 8) by lia.
    rewrite Z.div_add by lia. reflexivity. }
  rewrite generate_random_bits_pos by lia. rewrite E, Hbs.
  eexists. split; [reflexivity|].
  rewrite take_all; [apply pack_join|].
  rewrite join_length. lia.
Qed.

Lemma generate_random_bits_lossless_witness :
  exists s,
    generate_random_bits (constant_urandom [x0f; xc3]) 16 [] = (Ok s, [2])
    /\ pack 2 s = [x0f; xc3].
Proof.
  apply (generate_random_bits_lossless (constant_urandom [x0f; xc3]) []
           [x0f; xc3]).
  - discriminate.
  - reflexivity.
Defined.

(** X10: every non-empty string over ['0']/['1'] is a possible result: for
    [n] its length, the source answer [pack (ceil(n / 8)) s] has
    [ceil(n / 8)] bytes and makes [generate_random_bits n] return [s]. *)
Theorem generate_random_bits_onto
    (urandom : oracle) (w : world) (s : string) :
  is_bitstring s = true -> s <> "" ->
  let n := len s in
  let bs := pack (Z.to_nat ((n + 7) / 8)) s in
  Z.of_nat (List.length bs) = (n + 7) / 8
  /\ (urandom w ((n + 7) / 8) = Ok bs ->
      generate_random_bits urandom n w
      = (Ok s, (w ++ [(n + 7) / 8])%list)).
Proof.
  intros Hs Hne n bs. subst bs n. unfold len.
  assert (Hn : 0 < Z.of_nat (String.length s)).
  { destruct s; [congruence|]. simpl String.length. lia. }
  pose proof (n_bytes_ceil _ Hn) as Hc.
  split.
  - rewrite length_pack. lia.
  - intros Hbs. rewrite generate_random_bits_pos by lia. rewrite Hbs.
    f_equal. f_equal. rewrite Nat2Z.id.
    apply join_pack; [exact Hs | lia].
Qed.

Lemma generate_random_bits_onto_witness :
  generate_random_bits (constant_urandom [xb4; x80]) 9 [] = (Ok "101101001", [2]).
Proof.
  apply (generate_random_bits_onto (constant_urandom [xb4; x80]) []
           "101101001" eq_refl).
  - discriminate.
  - reflexivity.
Defined.

(** * Further properties of [bit_stats] *)

(** ** Exact quotients *)

Lemma div_eucl_exact (q b : Z) : 0 < b -> Z.div_eucl (q * b) b = (q, 0).
Proof.
  intros Hb. pose proof (Z.div_mul q b ltac:(lia)) as Hq.
  pose proof (Z.mod_mul q b ltac:(lia)) as Hr.
  unfold Z.div in Hq. unfold Z.modulo in Hr.
  destruct (Z.div_eucl (q * b) b) as [q' r']. now subst.
Qed.

Lemma new_location_exact (b : Z) : new_location b 0 = loc_Exact.
Proof. unfold new_location. destruct (Z.even b); reflexivity. Qed.

Lemma true_divide_zero (n : Z) : 0 < n -> true_divide 0 n = Ok fzero.
Proof.
  intros Hn. unfold true_divide.
  destruct (Z.eqb_spec n 0) as [->|_]; [lia|].
  destruct n as [|p|p]; try lia. reflexivity.
Qed.

Lemma true_divide_self (n : Z) : 0 < n -> true_divide n n = Ok fone.
Proof.
  intros Hn. unfold true_divide.
  destruct (Z.eqb_spec n 0) as [->|_]; [lia|].
  destruct n as [|p|p]; try lia.
  cbn [float_of_int_exact SFdiv xorb]. unfold SFdiv_core_binary.
  replace (Zdigits2 (Z.pos p) + 0 - (Zdigits2 (Z.pos p) + 0)) with 0 by lia.
  change (Z.min (fexp prec emax 0) (0 - 0)) with (-53).
  change (0 - 0 - -53) with 53.
  cbv beta iota zeta.
  rewrite Z.shiftl_mul_pow2 by lia.
  rewrite (Z.mul_comm (Z.pos p)), div_eucl_exact by lia.
  rewrite new_location_exact. reflexivity.
Qed.

Lemma true_divide_half (m : Z) : 0 < m -> true_divide m (2 * m) = Ok fhalf.
Proof.
  intros Hm. unfold true_divide.
  destruct (Z.eqb_spec (2 * m) 0) as [E|_]; [lia|].
  destruct m as [|p|p]; try lia.
  change (2 * Z.pos p) with (Z.pos p~0).
  cbn [float_of_int_exact SFdiv xorb]. unfold SFdiv_core_binary.
  assert (Hd : Zdigits2 (Z.pos p) + 0 - (Zdigits2 (Z.pos p~0) + 0) = -1).
  { cbn [Zdigits2 digits2_pos]. lia. }
  rewrite Hd.
  change (Z.min (fexp prec emax (-1)) (0 - 0)) with (-54).
  change (0 - 0 - -54) with 54.
  cbv beta iota zeta.
  rewrite Z.shiftl_mul_pow2 by lia.
  replace (Z.pos p * 2 ^ 54) with (2 ^ 53 * Z.pos p~0).
  2:{ change (2 ^ 54) with (2 ^ 53 * 2). change (Z.pos p~0) with (2 * Z.pos p).
      lia. }
  rewrite div_eucl_exact by lia.
  rewrite new_location_exact. reflexivity.
Qed.

(** ** The result of [bit_stats], step by step *)

Lemma bit_stats_steps (l : float -> float) (s : string) (p0 p1 h0 h1 : float) :
  s <> "" ->
  true_divide (count "0" s) (len s) = Ok p0 ->
  true_divide (len s - count "0" s) (len s) = Ok p1 ->
  _h l p0 = Ok h0 -> _h l p1 = Ok h1 ->
  bit_stats l s
  = Ok (Stats.mk (len s) (count "0" s) (len s - count "0" s) (fadd h0 h1)).
Proof.
  intros Hne E0 E1 H0 H1. unfold bit_stats.
  assert (Ht : int_truthy (len s) = true).
  { destruct s; [congruence|]. reflexivity. }
  rewrite Ht, E0. cbn [rbind]. rewrite E1. cbn [rbind].
  rewrite H0. cbn [rbind]. rewrite H1. reflexivity.
Qed.

Lemma len_pos (s : string) : s <> "" -> 0 < len s.
Proof. destruct s; [congruence|]. intros _. unfold len. simpl String.length. lia. Qed.

Lemma _h_one (l : float -> float) :
  _h l fone = Ok (fneg (fmul fone (l fone))).
Proof. reflexivity. Qed.

Lemma zero_cases (x : float) :
  SFeqb x fzero = true -> x = S754_zero false \/ x = S754_zero true.
Proof.
  destruct x as [[|]|[|]| |[|] m e]; cbn; intros H;
    try discriminate H; auto.
Qed.

(** X11: a non-empty string made of one symbol only - all ['0'], or no
    ['0'] at all - has entropy exactly [0.0], for every C library whose
    [log2(1.0)] is zero. *)
Theorem bit_stats_constant_entropy (l : float -> float) (s : string) :
  SFeqb (l fone) fzero = true ->
  s <> "" ->
  count "0" s = len s \/ count "0" s = 0 ->
  exists st, bit_stats l s = Ok st /\ Stats.entropy st = fzero.
Proof.
  intros Hl Hne Hc. pose proof (len_pos s Hne) as Hn.
  pose proof (_h_one l) as H1.
  assert (Hz : _h l fzero = Ok fzero) by reflexivity.
  apply zero_cases in Hl.
  destruct Hc as [Hc|Hc].
  - rewrite (bit_stats_steps l s fone fzero
               (fneg (fmul fone (l fone))) fzero Hne); try assumption.
    + eexists. split; [reflexivity|]. cbn [Stats.entropy].
      destruct Hl as [-> | ->]; reflexivity.
    + rewrite Hc. now apply true_divide_self.
    + rewrite Hc, Z.sub_diag. now apply true_divide_zero.
  - rewrite (bit_stats_steps l s fzero fone
               fzero (fneg (fmul fone (l fone))) Hne); try assumption.
    + eexists. split; [reflexivity|]. cbn [Stats.entropy].
      destruct Hl as [-> | ->]; reflexivity.
    + rewrite Hc. now apply true_divide_zero.
    + rewrite Hc, Z.sub_0_r. now apply true_divide_self.
Qed.

Lemma bit_stats_constant_entropy_witness :
  exists st, bit_stats exact_log2 "11111" = Ok st /\ Stats.entropy st = fzero.
Proof.
  apply (bit_stats_constant_entropy exact_log2 "11111").
  - reflexivity.
  - discriminate.
  - right. reflexivity.
Defined.

(** X12: a non-empty string with as many ['0'] as other symbols has entropy
    exactly [1.0], for every C library whose [log2(0.5)] is [-1.0]. *)
Theorem bit_stats_balanced_entropy (l : float -> float) (s : string) :
  l fhalf = fneg fone ->
  s <> "" ->
  count "0" s = len s - count "0" s ->
  exists st, bit_stats l s = Ok st /\ Stats.entropy st = fone.
Proof.
  intros Hl Hne Hc. pose proof (len_pos s Hne) as Hn.
  assert (Hh : _h l fhalf = Ok fhalf).
  { unfold _h. cbn [flt SFltb SFcompare fzero fhalf math_log2 rbind].
    rewrite Hl. reflexivity. }
  assert (Hd : true_divide (count "0" s) (len s) = Ok fhalf).
  { replace (len s) with (2 * count "0" s) by lia.
    apply true_divide_half. lia. }
  rewrite (bit_stats_steps l s fhalf fhalf fhalf fhalf Hne); try assumption.
  - eexists. split; reflexivity.
  - rewrite <- Hc. exact Hd.
Qed.

Lemma bit_stats_balanced_entropy_witness :
  exists st, bit_stats exact_log2 "011010" = Ok st /\ Stats.entropy st = fone.
Proof.
  apply (bit_stats_balanced_entropy exact_log2 "011010").
  - reflexivity.
  - discriminate.
  - reflexivity.
Defined.

(** ** Exchanging the two symbols *)

Lemma fadd_comm (x y : float) : fadd x y = fadd y x.
Proof.
  unfold fadd, SFadd.
  destruct x as [sx|sx| |sx mx ex], y as [sy|sy| |sy my ey];
    try reflexivity; try (destruct sx, sy; reflexivity).
  rewrite (Z.min_comm ey ex). f_equal. apply Z.add_comm.
Qed.

Lemma len_complement (s : string) : len (complement s) = len s.
Proof.
  unfold len. f_equal. induction s as [|c s IH]; simpl; congruence.
Qed.

Lemma count_complement_bits (s : string) :
  is_bitstring s = true ->
  count "0" (complement s) = len s - count "0" s.
Proof.
  unfold len. induction s as [|c s IH];
    cbn [complement count String.length is_bitstring]; intros H.
  - reflexivity.
  - apply andb_true_iff in H as [Hc Hs]. specialize (IH Hs).
    apply is_bit_cases in Hc as [-> | ->];
      change (flip_bit "0") with "1"%char;
      change (flip_bit "1") with "0"%char;
      change (Ascii.eqb "0" "0") with true;
      change (Ascii.eqb "1" "0") with false; lia.
Qed.

(** X13: exchanging ['0'] and ['1'] in a bit string exchanges [zeros] and
    [ones] and leaves [length] and [entropy] unchanged. *)
Theorem bit_stats_complement (l : float -> float) (s : string) :
  is_bitstring s = true ->
  exists st st',
    bit_stats l s = Ok st /\ bit_stats l (complement s) = Ok st'
    /\ Stats.length st' = Stats.length st
    /\ Stats.zeros st' = Stats.ones st
    /\ Stats.ones st' = Stats.zeros st
    /\ Stats.entropy st' = Stats.entropy st.
Proof.
  intros Hs. unfold bit_stats.
  rewrite (len_complement s), (count_complement_bits s Hs).
  replace (len s - (len s - count "0" s)) with (count "0" s) by lia.
  pose proof (count_bounds "0" s) as Hc.
  assert (Hp : forall a, 0 <= a <= len s ->
             exists p, (if int_truthy (len s) then true_divide a (len s)
                        else Ok fzero) = Ok p).
  { intros a Ha. unfold int_truthy.
    destruct (Z.eqb_spec (len s) 0) as [_|Hne]; simpl.
    - eexists; reflexivity.
    - apply true_divide_ok; lia. }
  destruct (Hp (count "0" s) ltac:(lia)) as [p0 ->].
  destruct (Hp (len s - count "0" s) ltac:(lia)) as [p1 ->].
  destruct (_h_total l p0) as [h0 E0]. destruct (_h_total l p1) as [h1 E1].
  cbn [rbind]. rewrite E0, E1. cbn [rbind].
  eexists _, _. split; [reflexivity|]. split; [reflexivity|].
  cbn [Stats.length Stats.zeros Stats.ones Stats.entropy].
  repeat split. apply fadd_comm.
Qed.

Lemma bit_stats_complement_witness :
  exists st st',
    bit_stats exact_log2 "0010" = Ok st
    /\ bit_stats exact_log2 "1101" = Ok st'
    /\ Stats.zeros st' = Stats.ones st
    /\ Stats.entropy st' = Stats.entropy st.
Proof.
  destruct (bit_stats_complement exact_log2 "0010" eq_refl)
    as (st & st' & H & H' & _ & Hz & _ & He).
  exists st, st'. repeat split; assumption.
Defined.

(** ** Counts *)

Lemma count_app (c : ascii) (a b : string) :
  count c (a ++ b) = count c a + count c b.
Proof.
  induction a as [|x a IH]; cbn [append count]; [reflexivity|].
  rewrite IH. lia.
Qed.

Lemma len_app (a b : string) : len (a ++ b) = len a + len b.
Proof. unfold len. rewrite length_app. lia. Qed.

(** X14: the counts of a concatenation are the sums of the counts of its
    parts: [length], [zeros] and [ones] of [a + b] are those of [a] plus
    those of [b]. *)
Theorem bit_stats_concat (l : float -> float) (a b : string) :
  exists sa sb sab,
    bit_stats l a = Ok sa /\ bit_stats l b = Ok sb
    /\ bit_stats l (a ++ b) = Ok sab
    /\ Stats.length sab = Stats.length sa + Stats.length sb
    /\ Stats.zeros sab = Stats.zeros sa + Stats.zeros sb
    /\ Stats.ones sab = Stats.ones sa + Stats.ones sb.
Proof.
  destruct (bit_stats_ok l a) as [ea ->].
  destruct (bit_stats_ok l b) as [eb ->].
  destruct (bit_stats_ok l (a ++ b)) as [eab ->].
  eexists _, _, _. do 3 (split; [reflexivity|]).
  cbn [Stats.length Stats.zeros Stats.ones].
  rewrite len_app, count_app. repeat split; lia.
Qed.

(** X15: on every string both counts lie between [0] and [length]; in
    particular [ones], computed by subtraction, is never negative. *)
Theorem bit_stats_count_bounds (l : float -> float) (s : string) :
  exists st,
    bit_stats l s = Ok st
    /\ 0 <= Stats.zeros st <= Stats.length st
    /\ 0 <= Stats.ones st <= Stats.length st
    /\ 0 <= Stats.length st.
Proof.
  destruct (bit_stats_ok l s) as [e ->]. pose proof (count_bounds "0" s).
  eexists. split; [reflexivity|].
  cbn [Stats.length Stats.zeros Stats.ones]. lia.
Qed.

(** * Further properties of the length handling *)

(** ** Decimal literals *)

Example decimal_examples :
  decimal 0 = "0" /\ decimal 7 = "7" /\ decimal 256 = "256"
  /\ decimal 262144 = "262144" /\ decimal 1000 = "1000".
Proof. repeat split; reflexivity. Qed.

Lemma digit_value_char (d : Z) :
  0 <= d < 10 -> digit_value (digit_char d) = Some d.
Proof.
  intros H.
  assert (C : d = 0 \/ d = 1 \/ d = 2 \/ d = 3 \/ d = 4 \/ d = 5 \/ d = 6
              \/ d = 7 \/ d = 8 \/ d = 9) by lia.
  repeat (destruct C as [-> | C]; [reflexivity|]). subst d. reflexivity.
Qed.

Lemma scan_digits_decimal (f : nat) (n : Z) (rest : string) :
  0 <= n < 10 ^ Z.of_nat (S f) ->
  exists c : nat,
    (1 <= c <= S f)%nat
    /\ forall a k p,
         scan_digits (decimal_acc (S f) n rest) a k p
         = scan_digits rest (a * 10 ^ Z.of_nat c + n) (k + c) true.
Proof.
  revert n rest; induction f as [|f IH]; intros n rest Hn.
  - exists 1%nat. split; [lia|]. intros a k p.
    assert (Hd : n mod 10 = n) by (apply Z.mod_small; simpl in Hn; lia).
    cbn [decimal_acc]. rewrite Hd.
    assert (E : (if n / 10 =? 0
                 then String (digit_char n) rest
                 else String (digit_char n) rest)
                = String (digit_char n) rest) by (destruct (n / 10 =? 0); reflexivity).
    rewrite E. cbn [scan_digits].
    rewrite digit_value_char by (simpl in Hn; lia).
    change (10 ^ Z.of_nat 1) with 10.
    replace (k + 1)%nat with (S k) by lia. f_equal. lia.
  - pose proof (Z.mod_pos_bound n 10 ltac:(lia)) as Hm.
    pose proof (Z.div_mod n 10 ltac:(lia)) as Hdm.
    change (decimal_acc (S (S f)) n rest)
      with (if n / 10 =? 0
            then String (digit_char (n mod 10)) rest
            else decimal_acc (S f) (n / 10)
                   (String (digit_char (n mod 10)) rest)).
    destruct (Z.eqb_spec (n / 10) 0) as [E|E].
    + exists 1%nat. split; [lia|]. intros a k p.
      cbn [scan_digits]. rewrite digit_value_char by lia.
      change (10 ^ Z.of_nat 1) with 10.
      replace (k + 1)%nat with (S k) by lia. f_equal. lia.
    + assert (Hq : 0 <= n / 10 < 10 ^ Z.of_nat (S f)).
      { split; [apply Z.div_pos; lia|].
        apply Z.div_lt_upper_bound; [lia|].
        replace (Z.of_nat (S (S f))) with (1 + Z.of_nat (S f)) in Hn by lia.
        rewrite Z.pow_add_r in Hn by lia. change (10 ^ 1) with 10 in Hn.
        lia. }
      destruct (IH (n / 10) (String (digit_char (n mod 10)) rest) Hq)
        as (c & Hc & Hs).
      exists (S c). split; [lia|]. intros a k p.
      rewrite Hs. cbn [scan_digits]. rewrite digit_value_char by lia.
      replace (k + S c)%nat with (S (k + c)) by lia. f_equal.
      replace (Z.of_nat (S c)) with (Z.of_nat c + 1) by lia.
      rewrite Z.pow_add_r by lia. change (10 ^ 1) with 10. lia.
Qed.

Lemma scan_digits_first (s : string) (a : Z) (k : nat) (r : Z * nat) :
  scan_digits s a k false = Some r ->
  exists c s' d, s = String c s' /\ digit_value c = Some d.
Proof.
  destruct s as [|c s']; cbn [scan_digits]; [discriminate|].
  destruct (digit_value c) as [d|] eqn:E.
  - intros _. now exists c, s', d.
  - destruct (Ascii.eqb c "_"); discriminate.
Qed.

Lemma int_of_str_digit_first (c : ascii) (s' : string) (d : Z) :
  digit_value c = Some d ->
  int_of_str (String c s')
  = match scan_digits (String c s') 0 0 false with
    | Some (v, digits) =>
        if (int_max_str_digits <? digits)%nat then Raise ValueError else Ok v
    | None => Raise ValueError
    end.
Proof.
  intros H.
  destruct c as [[|] [|] [|] [|] [|] [|] [|] [|]];
    vm_compute in H; try discriminate H; reflexivity.
Qed.

(** [int] on a string that starts with its digits. *)
Lemma int_of_str_scan (s : string) (v : Z) (digits : nat) :
  scan_digits s 0 0 false = Some (v, digits) ->
  int_of_str s
  = if (int_max_str_digits <? digits)%nat then Raise ValueError else Ok v.
Proof.
  intros H. destruct (scan_digits_first s 0 0 _ H) as (c & s' & d & -> & Hd).
  rewrite (int_of_str_digit_first c s' d Hd), H. reflexivity.
Qed.

Lemma int_of_str_minus (s : string) :
  int_of_str (String "-" s)
  = match scan_digits s 0 0 false with
    | Some (v, digits) =>
        if (int_max_str_digits <? digits)%nat then Raise ValueError
        else Ok (- v)
    | None => Raise ValueError
    end.
Proof. reflexivity. Qed.

Lemma decimal_scan (n : Z) :
  0 <= n ->
  exists c : nat,
    (1 <= c <= S (Z.to_nat (Z.log2 n)))%nat
    /\ scan_digits (decimal n) 0 0 false = Some (n, c).
Proof.
  intros Hn. unfold decimal.
  assert (Hb : 0 <= n < 10 ^ Z.of_nat (S (Z.to_nat (Z.log2 n)))).
  { split; [exact Hn|].
    pose proof (Z.log2_nonneg n) as Hl.
    replace (Z.of_nat (S (Z.to_nat (Z.log2 n)))) with (Z.log2 n + 1) by lia.
    destruct (Z.eq_dec n 0) as [->|Hne].
    - simpl. lia.
    - pose proof (Z.log2_spec n ltac:(lia)) as Hs.
      replace (Z.succ (Z.log2 n)) with (Z.log2 n + 1) in Hs by lia.
      assert (2 ^ (Z.log2 n + 1) <= 10 ^ (Z.log2 n + 1))
        by (apply Z.pow_le_mono_l; lia).
      lia. }
  destruct (scan_digits_decimal _ n "" Hb) as (c & Hc & Hs).
  exists c. split; [exact Hc|]. rewrite Hs. cbn [scan_digits].
  replace (0 * 10 ^ Z.of_nat c + n) with n by lia. reflexivity.
Qed.

Lemma int_of_str_decimal (n : Z) :
  0 <= n -> Z.log2 n < 4300 -> int_of_str (decimal n) = Ok n.
Proof.
  intros Hn Hl. destruct (decimal_scan n Hn) as (c & Hc & Hs).
  rewrite (int_of_str_scan _ _ _ Hs).
  pose proof (Z.log2_nonneg n).
  assert (E : (int_max_str_digits <? c)%nat = false).
  { apply Nat.ltb_ge. unfold int_max_str_digits. lia. }
  now rewrite E.
Qed.

Lemma scan_digits_all_digits (s : string) (a : Z) (k : nat) (p : bool) :
  all_digits s = true -> p = true \/ s <> "" ->
  exists v, scan_digits s a k p = Some (v, (k + String.length s)%nat).
Proof.
  revert a k p; induction s as [|c s IH]; intros a k p Hs Hp.
  - destruct Hp as [-> | Hp]; [|congruence].
    exists a. cbn [scan_digits String.length]. now rewrite Nat.add_0_r.
  - cbn [all_digits] in Hs. cbn [scan_digits String.length].
    destruct (digit_value c) as [d|]; [|discriminate Hs].
    destruct (IH (10 * a + d) (S k) true Hs (or_introl eq_refl)) as [v Hv].
    exists v. rewrite Hv. do 2 f_equal. lia.
Qed.

(** X16: a [length] written in decimal in the query string is taken at its
    value: for a natural number [n] below [2 ^ 4300], [?length=n] resolves
    to [n] clamped into [[1, MAX_BITS]], hence to [n] itself when
    [1 <= n <= MAX_BITS], and [?length=-n] resolves to [1]. *)
Theorem api_generate_n_bits_decimal
    (n : Z) (j : bool) (body : option pyval) :
  0 <= n -> Z.log2 n < 4300 ->
  api_generate_n_bits (mk_request (Some (decimal n)) j body)
  = Ok (Z.max 1 (Z.min n MAX_BITS))
  /\ (1 <= n <= MAX_BITS ->
      api_generate_n_bits (mk_request (Some (decimal n)) j body) = Ok n)
  /\ api_generate_n_bits (mk_request (Some (String "-" (decimal n))) j body)
     = Ok 1.
Proof.
  intros Hn Hl. pose proof (int_of_str_decimal n Hn Hl) as Hi.
  assert (E : api_generate_n_bits (mk_request (Some (decimal n)) j body)
              = Ok (Z.max 1 (Z.min n MAX_BITS))).
  { apply (api_generate_n_bits_query _ (decimal n) n); [reflexivity | exact Hi]. }
  split; [exact E|]. split.
  - intros Hr. rewrite E. f_equal. unfold MAX_BITS in *. lia.
  - assert (Hm : int_of_str (String "-" (decimal n)) = Ok (- n)).
    { rewrite int_of_str_minus.
      destruct (decimal_scan n Hn) as (c & Hc & ->).
      pose proof (Z.log2_nonneg n).
      assert (F : (int_max_str_digits <? c)%nat = false).
      { apply Nat.ltb_ge. unfold int_max_str_digits. lia. }
      now rewrite F. }
    rewrite (api_generate_n_bits_query _ (String "-" (decimal n)) (- n));
      [|reflexivity | exact Hm].
    f_equal. unfold MAX_BITS. lia.
Qed.

Lemma api_generate_n_bits_decimal_witness :
  api_generate_n_bits (mk_request (Some "4096") false None) = Ok 4096.
Proof.
  refine (proj1 (proj2 (api_generate_n_bits_decimal 4096 false None _ _)) _).
  - lia.
  - vm_compute. reflexivity.
  - unfold MAX_BITS. lia.
Defined.

(** X17: with the interpreter's limit of [int_max_str_digits = 4300] digits
    on decimal literals, a [length] made of more than 4300 digits is refused
    by [int] and resolves to the default 256, not to [MAX_BITS]. *)
Theorem api_generate_n_bits_overlong
    (s : string) (j : bool) (body : option pyval) :
  all_digits s = true ->
  (int_max_str_digits < String.length s)%nat ->
  int_of_str s = Raise ValueError
  /\ api_generate_n_bits (mk_request (Some s) j body) = Ok DEFAULT_BITS.
Proof.
  intros Hd Hl.
  assert (Hne : s <> "") by (destruct s; [simpl in Hl; lia | discriminate]).
  destruct (scan_digits_all_digits s 0 0 false Hd (or_intror Hne)) as [v Hv].
  assert (Hi : int_of_str s = Raise ValueError).
  { rewrite (int_of_str_scan _ _ _ Hv). cbn [Nat.add].
    apply Nat.ltb_lt in Hl. now rewrite Hl. }
  split; [exact Hi|].
  apply (api_generate_n_bits_default _ (PyStr s)).
  - apply api_generate_length_args; [reflexivity|].
    destruct s; [congruence | reflexivity].
  - right. exists ValueError. exact Hi.
Qed.

Lemma api_generate_n_bits_overlong_witness :
  api_generate_n_bits (mk_request (Some (repeat_char "9" 4301)) false None)
  = Ok 256.
Proof.
  apply (api_generate_n_bits_overlong (repeat_char "9" 4301) false None).
  - vm_compute. reflexivity.
  - apply Nat.ltb_lt. vm_compute. reflexivity.
Defined.

(** X18: the request of the page, [GET /generate?length=n] with
    [1 <= n <= MAX_BITS] written in decimal, is answered with exactly [n]
    symbols over ['0']/['1'] when the source delivers, after one request
    of [ceil(n / 8)] bytes to it. *)
Theorem api_generate_decimal_request
    (urandom : oracle) (l : float -> float)
    (n : Z) (j : bool) (body : option pyval) (w : world) :
  1 <= n <= MAX_BITS ->
  delivers urandom w ((n + 7) / 8) ->
  exists resp,
    api_generate urandom l (mk_request (Some (decimal n)) j body) w
    = (Ok resp, (w ++ [(n + 7) / 8])%list)
    /\ len (bits resp) = n
    /\ is_bitstring (bits resp) = true
    /\ Stats.length (stats resp) = n.
Proof.
  intros Hn Hsrc.
  assert (Hl : Z.log2 n < 4300).
  { apply Z.log2_lt_pow2; [lia|]. unfold MAX_BITS in Hn.
    assert (2 ^ 19 <= 2 ^ 4300) by (apply Z.pow_le_mono_r; lia).
    change (2 ^ 19) with 524288 in *. lia. }
  assert (E : api_generate_n_bits (mk_request (Some (decimal n)) j body)
              = Ok n).
  { rewrite (api_generate_n_bits_query _ (decimal n) n);
      [|reflexivity | apply int_of_str_decimal; lia].
    f_equal. unfold MAX_BITS in Hn. unfold MAX_BITS. lia. }
  destruct Hsrc as (bs & Hbs & Hlen).
  pose proof (n_bytes_ceil n ltac:(lia)) as Hc.
  unfold api_generate, bind, lift. rewrite E.
  rewrite generate_random_bits_pos by lia. rewrite Hbs.
  set (s := take (Z.to_nat n) (join (map format_08b bs))).
  assert (Hs : len s = n) by (apply expansion_prefix_length; lia).
  destruct (bit_stats_ok l s) as [e ->].
  eexists. split; [reflexivity|]. cbn [bits stats Stats.length].
  repeat split; try assumption.
  apply is_bitstring_take, join_bits.
Qed.

Lemma api_generate_decimal_request_witness :
  exists resp,
    api_generate fake_urandom exact_log2
      (mk_request (Some "13") false None) [] = (Ok resp, [2])
    /\ len (bits resp) = 13.
Proof.
  destruct (api_generate_decimal_request fake_urandom exact_log2 13 false None [])
    as (resp & Hr & Hlen & _).
  - unfold MAX_BITS. lia.
  - exists (List.repeat xa5 2). split; reflexivity.
  - exists resp. split; [exact Hr | exact Hlen].
Defined.

(** ** The JSON body *)

Lemma dict_get_missing (d : list (string * pyval)) (key : string) :
  (forall k v, In (k, v) d -> k <> key) -> dict_get d key = PyNone.
Proof.
  induction d as [|[k v] d IH]; intros H; cbn [dict_get]; [reflexivity|].
  destruct (String.eqb_spec k key) as [E|_].
  - exfalso. exact (H k v (or_introl eq_refl) E).
  - apply IH. intros k' v' Hin. apply (H k' v'). now right.
Qed.

(** X19: a JSON request without a usable [length] in the query string and
    whose body is an object without the key ["length"] resolves to the
    default 256. *)
Theorem api_generate_n_bits_json_missing_key
    (d : list (string * pyval)) (q : option string) :
  q = None \/ q = Some "" ->
  (forall k v, In (k, v) d -> k <> "length") ->
  api_generate_n_bits (mk_request q true (Some (PyDict d))) = Ok DEFAULT_BITS.
Proof.
  intros Hq Hd. unfold api_generate_n_bits, api_generate_length, json_get_length.
  cbn [args_length is_json json].
  destruct Hq as [-> | ->]; cbn [str_truthy];
    rewrite (dict_get_missing d "length" Hd); reflexivity.
Qed.

Lemma api_generate_n_bits_json_missing_key_witness :
  api_generate_n_bits
    (mk_request None true (Some (PyDict [("bits", PyInt 64)]))) = Ok 256.
Proof.
  apply (api_generate_n_bits_json_missing_key [("bits", PyInt 64)] None).
  - now left.
  - intros k v [H|[]]. injection H as <- _. discriminate.
Defined.
